(** * A model of [xbob.db.mobio.query]: the MOBIO metadata query layer

    Shallow embedding of [src/xbob/db/mobio/query.py].  The relational store
    reached through SQLAlchemy is modelled as lists of rows; a query over one
    entity is a filter over the rows of that entity (SQLAlchemy returns each
    entity of a single-entity query once).  Python exceptions are the error
    side of a small result monad. *)

From Stdlib Require Import String List Bool Arith Lia Sorted.
Import ListNotations.
Open Scope string_scope.

(** ** Python exceptions and the result monad *)

Inductive exn :=
| RuntimeError (msg : string)
| NameError (name : string)
| AttributeError (msg : string)
| NoResultFound
| MultipleResultsFound.

Inductive result (A : Type) :=
| Ok (a : A)
| Err (e : exn).
Arguments Ok {A} a.
Arguments Err {A} e.

Definition bind {A B} (m : result A) (k : A -> result B) : result B :=
  match m with
  | Ok a => k a
  | Err e => Err e
  end.

Notation "x <- m ;; k" := (bind m (fun x => k))
  (at level 61, m at next level, right associativity).
Notation "m ;;; k" := (bind m (fun _ => k))
  (at level 61, right associativity).

(** ** Python values handed to the selectors

    A selector argument is [None], a scalar string, or a list/tuple of
    strings. *)

Inductive arg :=
| ANone
| AStr (s : string)
| ASeq (l : list string).

(** Python truthiness of such a value ([not l] is its negation). *)
Definition truthy (a : arg) : bool :=
  match a with
  | ANone => false
  | AStr s => negb (String.eqb s EmptyString)
  | ASeq l => match l with [] => false | _ => true end
  end.

(** The elements an [in] test or an SQL [in_] sees.  Every value reaching a
    query is a validated one: a sequence, or the default [''] which is only
    used behind an [if x:] guard. *)
Definition members (a : arg) : list string :=
  match a with
  | ASeq l => l
  | _ => []
  end.

Definition str_in (x : string) (l : list string) : bool :=
  existsb (String.eqb x) l.

(** The sets of valid values are Python lists or tuples; their [%s]
    rendering differs. *)
Inductive seqkind := KList | KTuple.

Record pyseq := mkpyseq { ps_kind : seqkind; ps_elems : list string }.

Definition py_repr_str (s : string) : string := "'" ++ s ++ "'".

Fixpoint join_repr (l : list string) : string :=
  match l with
  | [] => EmptyString
  | [x] => py_repr_str x
  | x :: r => py_repr_str x ++ ", " ++ join_repr r
  end.

Definition py_repr_seq (v : pyseq) : string :=
  match ps_kind v, ps_elems v with
  | KList, l => "[" ++ join_repr l ++ "]"
  | KTuple, [x] => "(" ++ py_repr_str x ++ ",)"
  | KTuple, l => "(" ++ join_repr l ++ ")"
  end.

(** ** [Database.__check_validity__] *)

(** The double-quote character. *)
Definition dquote : string := String (Ascii.ascii_of_nat 34) EmptyString.

Definition invalid_msg (obj k : string) (valid : pyseq) : string :=
  "Invalid " ++ obj ++ " " ++ dquote ++ k ++ dquote ++ ". Valid values are "
    ++ py_repr_seq valid ++ ", or lists/tuples of those".

(** The [for k in l] loop. *)
Fixpoint check_elems (l : list string) (obj : string) (valid : pyseq)
  : result unit :=
  match l with
  | [] => Ok tt
  | k :: r =>
      if str_in k (ps_elems valid) then check_elems r obj valid
      else Err (RuntimeError (invalid_msg obj k valid))
  end.

Definition check_validity (l : arg) (obj : string) (valid : pyseq)
  (default : arg) : result arg :=
  if negb (truthy l) then Ok default
  else match l with
       | ASeq xs => check_elems xs obj valid ;;; Ok l
       | AStr s =>
           (* recursive call on the one-element tuple [(l,)] *)
           check_elems [s] obj valid ;;; Ok (ASeq [s])
       | ANone => Ok default
       end.

(** ** The relational store

    Rows of the tables of [models.py].  A relationship column holds the keys
    of the rows it links: [c_subworlds] and [f_subworlds] the names of
    [Subworld] rows, [f_protocol_purposes] the ids of [ProtocolPurpose] rows,
    [f_tmodels] the ids of [TModel] rows (strings: [TModel.id] is a
    [String(9)] column); [pp_protocol] is the name of the linked [Protocol]
    row. *)

Record Client := mkClient {
  c_id : nat;
  c_gender : string;
  c_sgroup : string;
  c_subworlds : list string
}.

Record File := mkFile {
  f_id : nat;
  f_client_id : nat;
  f_session_id : nat;
  f_speech_type : string;
  f_shot_id : nat;
  f_device : string;
  f_path : string;
  f_subworlds : list string;
  f_protocol_purposes : list nat;
  f_tmodels : list string
}.

Record ProtocolPurpose := mkProtocolPurpose {
  pp_id : nat;
  pp_protocol : string;
  pp_sgroup : string;
  pp_purpose : string
}.

Record TModel := mkTModel {
  t_id : string;
  t_client_id : nat
}.

Record store := mkStore {
  client_rows : list Client;
  file_rows : list File;
  protocol_rows : list string;
  protocol_purpose_rows : list ProtocolPurpose;
  subworld_rows : list string;
  tmodel_rows : list TModel
}.

(** The [Database] object: the driver's name and file location, and
    [self.session], [None] when the SQLite file was missing at [connect]. *)
Record Database := mkDatabase {
  info_name : string;
  sqlite_file : string;
  session : option store
}.

(** ** Constants of [models.py] *)

(** [Client.group_choices] (models.py is not in the sources): the full group
    axis {world, dev, eval} of the spec, in the order of the published
    models.py, [('dev', 'eval', 'world')]. *)
Definition group_choices : pyseq := mkpyseq KTuple ["dev"; "eval"; "world"].

(** Modelled from the spec: [ProtocolPurpose.purpose_choices], the purposes
    enrol and probe. *)
Definition purpose_choices : pyseq := mkpyseq KTuple ["enrol"; "probe"].

(** Modelled from the spec: [Client.gender_choices], male and female. *)
Definition gender_choices : pyseq := mkpyseq KTuple ["male"; "female"].

(** Modelled from the spec: [File.make_path(prefix, suffix)], the stem joined
    under the prefix directory with the suffix appended
    ([os.path.join(prefix, path + suffix)]). *)
Definition make_path (f : File) (prefix suffix : string) : string :=
  let stem := f_path f ++ suffix in
  if String.eqb prefix EmptyString then stem
  else if String.eqb (substring (String.length prefix - 1) 1 prefix) "/"
  then prefix ++ stem
  else prefix ++ "/" ++ stem.

(** ** Helpers: membership, ordering, [.one()], [set()] *)

Definition nat_in (x : nat) (l : list nat) : bool := existsb (Nat.eqb x) l.

Fixpoint insert_by {A} (le : A -> A -> bool) (x : A) (l : list A) : list A :=
  match l with
  | [] => [x]
  | y :: r => if le x y then x :: l else y :: insert_by le x r
  end.

(** [order_by]: a stable sort. *)
Fixpoint sort_by {A} (le : A -> A -> bool) (l : list A) : list A :=
  match l with
  | [] => []
  | x :: r => insert_by le x (sort_by le r)
  end.

Definition str_le (a b : string) : bool :=
  match String.compare a b with Gt => false | _ => true end.

(** [order_by(File.client_id, File.session_id, File.speech_type,
    File.shot_id, File.device)]. *)
Definition file_le (a b : File) : bool :=
  if negb (Nat.eqb (f_client_id a) (f_client_id b)) then Nat.ltb (f_client_id a) (f_client_id b)
  else if negb (Nat.eqb (f_session_id a) (f_session_id b)) then Nat.ltb (f_session_id a) (f_session_id b)
  else if negb (String.eqb (f_speech_type a) (f_speech_type b))
  then str_le (f_speech_type a) (f_speech_type b)
  else if negb (Nat.eqb (f_shot_id a) (f_shot_id b)) then Nat.ltb (f_shot_id a) (f_shot_id b)
  else str_le (f_device a) (f_device b).

Definition sort_files : list File -> list File := sort_by file_le.

(** [Query.one()]. *)
Definition one {A} (l : list A) : result A :=
  match l with
  | [x] => Ok x
  | [] => Err NoResultFound
  | _ => Err MultipleResultsFound
  end.

(** [list(set(retval))]: the identity map of the session gives one [File]
    object per primary key, so the set keeps one [File] per id.  The order
    of a Python set is unspecified; this keeps the last occurrence. *)
Fixpoint dedup_files (l : list File) : list File :=
  match l with
  | [] => []
  | f :: r =>
      if existsb (fun g => Nat.eqb (f_id g) (f_id f)) r then dedup_files r
      else f :: dedup_files r
  end.

(** ** Connection *)

(** [self.session.query(...)]: on [None] Python fails with an
    [AttributeError]. *)
Definition sess (db : Database) : result store :=
  match session db with
  | Some st => Ok st
  | None => Err (AttributeError "'NoneType' object has no attribute 'query'")
  end.

Definition unavailable_msg (db : Database) : string :=
  "Database '" ++ info_name db ++ "' cannot be found at expected location '"
    ++ sqlite_file db
    ++ "'. Create it and then try re-connecting using Database.connect()".

Definition is_valid (db : Database) : bool :=
  match session db with Some _ => true | None => false end.

Definition assert_validity (db : Database) : result unit :=
  if is_valid db then Ok tt else Err (RuntimeError (unavailable_msg db)).

(** ** Lookup helpers of [Database] *)

Definition protocols (db : Database) : result (list string) :=
  assert_validity db ;;;
  st <- sess db ;;
  Ok (protocol_rows st).

Definition protocol_names (db : Database) : result (list string) :=
  assert_validity db ;;;
  l <- protocols db ;;
  Ok l.

Definition has_protocol (db : Database) (name : string) : result bool :=
  assert_validity db ;;;
  st <- sess db ;;
  Ok (negb (Nat.eqb (length (filter (String.eqb name) (protocol_rows st))) 0)).

Definition protocol (db : Database) (name : string) : result string :=
  assert_validity db ;;;
  st <- sess db ;;
  one (filter (String.eqb name) (protocol_rows st)).

Definition protocol_purposes (db : Database) : result (list ProtocolPurpose) :=
  assert_validity db ;;;
  st <- sess db ;;
  Ok (protocol_purpose_rows st).

Definition subworlds (db : Database) : result (list string) :=
  assert_validity db ;;;
  st <- sess db ;;
  Ok (subworld_rows st).

Definition subworld_names (db : Database) : result (list string) :=
  assert_validity db ;;;
  l <- subworlds db ;;
  Ok l.

Definition has_subworld (db : Database) (name : string) : result bool :=
  assert_validity db ;;;
  st <- sess db ;;
  Ok (negb (Nat.eqb (length (filter (String.eqb name) (subworld_rows st))) 0)).

Definition has_client_id (db : Database) (id : nat) : result bool :=
  assert_validity db ;;;
  st <- sess db ;;
  Ok (negb (Nat.eqb (length (filter (fun c => Nat.eqb (c_id c) id) (client_rows st))) 0)).

Definition client (db : Database) (id : nat) : result Client :=
  assert_validity db ;;;
  st <- sess db ;;
  one (filter (fun c => Nat.eqb (c_id c) id) (client_rows st)).

(** ** Clients and models *)

(** [if x: q = q.filter(col.in_(x))]. *)
Definition opt_in (sel : arg) (v : string) : bool :=
  if truthy sel then str_in v (members sel) else true.

(** [q.join(Subworld, rel).filter(Subworld.name.in_(subworld))] guarded by
    [if subworld:]. *)
Definition opt_subworld (sel : arg) (names : list string) : bool :=
  if truthy sel then existsb (fun n => str_in n (members sel)) names else true.

Definition clients (db : Database) (protocol groups subworld gender : arg)
  : result (list Client) :=
  assert_validity db ;;;
  VALID_PROTOCOLS <- protocol_names db ;;
  let VALID_GROUPS := group_choices in
  VALID_SUBWORLDS <- subworld_names db ;;
  let VALID_GENDERS := gender_choices in
  protocol <- check_validity protocol "protocol" (mkpyseq KList VALID_PROTOCOLS) (AStr EmptyString) ;;
  groups <- check_validity groups "group" VALID_GROUPS (AStr EmptyString) ;;
  subworld <- check_validity subworld "subworld" (mkpyseq KList VALID_SUBWORLDS) (AStr EmptyString) ;;
  gender <- check_validity gender "gender" VALID_GENDERS (AStr EmptyString) ;;
  st <- sess db ;;
  Ok (sort_by (fun a b => Nat.leb (c_id a) (c_id b))
        (filter (fun c => opt_in protocol (c_gender c)
                          && opt_in groups (c_sgroup c)
                          && opt_subworld subworld (c_subworlds c)
                          && opt_in gender (c_gender c))
           (client_rows st))).

Definition dev_eval : pyseq := mkpyseq KTuple ["dev"; "eval"].

Definition tclients (db : Database) (protocol groups subworld gender : arg)
  : result (list Client) :=
  VALID_PROTOCOLS <- protocol_names db ;;
  let VALID_GROUPS := dev_eval in
  VALID_SUBWORLDS <- subworld_names db ;;
  let VALID_GENDERS := gender_choices in
  protocol <- check_validity protocol "protocol" (mkpyseq KList VALID_PROTOCOLS) (AStr EmptyString) ;;
  groups <- check_validity groups "group" VALID_GROUPS (AStr EmptyString) ;;
  subworld <- check_validity subworld "subworld" (mkpyseq KList VALID_SUBWORLDS) (AStr EmptyString) ;;
  gender <- check_validity gender "gender" VALID_GENDERS (AStr EmptyString) ;;
  clients db protocol (AStr "world") subworld gender.

Definition zclients (db : Database) (protocol groups subworld gender : arg)
  : result (list Client) :=
  assert_validity db ;;;
  let VALID_GROUPS := dev_eval in
  groups <- check_validity groups "group" VALID_GROUPS (AStr EmptyString) ;;
  clients db protocol (AStr "world") subworld gender.

Definition models (db : Database) (protocol groups subworld gender : arg)
  : result (list Client) :=
  clients db protocol groups subworld gender.

Definition file_client (st : store) (f : File) : option Client :=
  find (fun c => Nat.eqb (c_id c) (f_client_id f)) (client_rows st).

Definition tmodel_client (st : store) (t : TModel) : option Client :=
  find (fun c => Nat.eqb (c_id c) (t_client_id t)) (client_rows st).

(** [order_by(TModel.id)] on the string id: lexicographic order.  The
    statement after [return list(q)] is unreachable and not modelled. *)
Definition tmodels (db : Database) (protocol groups subworld gender : arg)
  : result (list TModel) :=
  assert_validity db ;;;
  VALID_PROTOCOLS <- protocol_names db ;;
  let VALID_GROUPS := dev_eval in
  VALID_SUBWORLDS <- subworld_names db ;;
  let VALID_GENDERS := gender_choices in
  protocol <- check_validity protocol "protocol" (mkpyseq KList VALID_PROTOCOLS) (AStr EmptyString) ;;
  groups <- check_validity groups "group" VALID_GROUPS (AStr EmptyString) ;;
  subworld <- check_validity subworld "subworld" (mkpyseq KList VALID_SUBWORLDS) (AStr EmptyString) ;;
  gender <- check_validity gender "gender" VALID_GENDERS (AStr EmptyString) ;;
  st <- sess db ;;
  Ok (sort_by (fun a b => str_le (t_id a) (t_id b))
        (filter (fun t => match tmodel_client st t with
                          | Some c => opt_subworld subworld (c_subworlds c)
                                      && opt_in gender (c_gender c)
                          | None => false
                          end)
           (tmodel_rows st))).

Definition get_client_id_from_model_id (model_id : nat) : nat := model_id.

(** ** Files *)

(** The [model_ids] argument of [objects]: [None], a non-iterable scalar
    (an integer id), or an iterable of ids. *)
Inductive model_arg :=
| MNone
| MScalar (m : nat)
| MSeq (l : list nat).

(** [if model_ids is None: model_ids = ()
     elif not isinstance(model_ids, collections.Iterable): model_ids = (model_ids,)] *)
Definition norm_model_ids (m : model_arg) : list nat :=
  match m with
  | MNone => []
  | MScalar x => [x]
  | MSeq l => l
  end.

(** [if model_ids: q = q.filter(col.in_(model_ids))]. *)
Definition opt_ids (model_ids : list nat) (v : nat) : bool :=
  match model_ids with [] => true | _ => nat_in v model_ids end.

(** [join(ProtocolPurpose, File.protocol_purposes).join(Protocol).filter(and_(
    Protocol.name.in_(protocol), ProtocolPurpose.sgroup.in_(groups),
    ProtocolPurpose.purpose == purpose))]. *)
Definition pp_match (st : store) (protocol groups : arg) (purpose : string)
  (f : File) : bool :=
  existsb (fun pp => nat_in (pp_id pp) (f_protocol_purposes f)
                     && str_in (pp_protocol pp) (protocol_rows st)
                     && str_in (pp_protocol pp) (members protocol)
                     && str_in (pp_sgroup pp) (members groups)
                     && String.eqb (pp_purpose pp) purpose)
    (protocol_purpose_rows st).

(** [query(File).join(Client)] with a filter on the joined pair. *)
Definition file_query (st : store) (p : File -> Client -> bool) : list File :=
  sort_files (filter (fun f => match file_client st f with
                               | Some c => p f c
                               | None => false
                               end) (file_rows st)).

(** The four branches of [objects]. *)
Definition world_branch (st : store) (subworld gender : arg)
  (model_ids : list nat) : list File :=
  file_query st (fun f c => String.eqb (c_sgroup c) "world"
                            && opt_subworld subworld (f_subworlds f)
                            && opt_in gender (c_gender c)
                            && opt_ids model_ids (f_client_id f)).

Definition enrol_branch (st : store) (protocol groups gender : arg)
  (model_ids : list nat) : list File :=
  file_query st (fun f c => pp_match st protocol groups "enrol" f
                            && opt_in gender (c_gender c)
                            && opt_ids model_ids (c_id c)).

Definition client_branch (st : store) (protocol groups gender : arg)
  (model_ids : list nat) : list File :=
  file_query st (fun f c => pp_match st protocol groups "probe" f
                            && opt_in gender (c_gender c)
                            && opt_ids model_ids (c_id c)).

(** [if len(model_ids) == 1: q = q.filter(not_(File.client_id.in_(model_ids)))] *)
Definition impostor_branch (st : store) (protocol groups gender : arg)
  (model_ids : list nat) : list File :=
  file_query st (fun f c => pp_match st protocol groups "probe" f
                            && opt_in gender (c_gender c)
                            && (if Nat.eqb (length model_ids) 1
                                then negb (nat_in (f_client_id f) model_ids)
                                else true)).

Definition when (b : bool) (l : list File) : list File := if b then l else [].

Definition VALID_CLASSES : pyseq := mkpyseq KTuple ["client"; "impostor"].

Definition objects (db : Database) (protocol purposes : arg) (model_ids : model_arg)
  (groups classes subworld gender : arg) : result (list File) :=
  assert_validity db ;;;
  VALID_PROTOCOLS <- protocol_names db ;;
  let VALID_PURPOSES := purpose_choices in
  let VALID_GROUPS := group_choices in
  VALID_SUBWORLDS <- subworld_names db ;;
  let VALID_GENDERS := gender_choices in
  protocol <- check_validity protocol "protocol" (mkpyseq KList VALID_PROTOCOLS) (ASeq VALID_PROTOCOLS) ;;
  purposes <- check_validity purposes "purpose" VALID_PURPOSES (ASeq (ps_elems VALID_PURPOSES)) ;;
  groups <- check_validity groups "group" VALID_GROUPS (ASeq (ps_elems VALID_GROUPS)) ;;
  classes <- check_validity classes "class" VALID_CLASSES (ASeq (ps_elems VALID_CLASSES)) ;;
  subworld <- check_validity subworld "subworld" (mkpyseq KList VALID_SUBWORLDS) (AStr EmptyString) ;;
  gender <- check_validity gender "gender" VALID_GENDERS (AStr EmptyString) ;;
  let model_ids := norm_model_ids model_ids in
  st <- sess db ;;
  let g := members groups in
  let devev := str_in "dev" g || str_in "eval" g in
  let probe := devev && str_in "probe" (members purposes) in
  let retval :=
    (when (str_in "world" g) (world_branch st subworld gender model_ids)
    ++ when (devev && str_in "enrol" (members purposes))
            (enrol_branch st protocol groups gender model_ids)
    ++ when (probe && str_in "client" (members classes))
            (client_branch st protocol groups gender model_ids)
    ++ when (probe && str_in "impostor" (members classes))
            (impostor_branch st protocol groups gender model_ids))%list in
  Ok (dedup_files retval).

(** The [model_ids] argument of [tobjects]: [None], a single [str] or
    [unicode] id, or an iterable of [TModel] ids. *)
Inductive tmodel_arg :=
| TNone
| TStr (s : string)
| TSeq (l : list string).

(** [if model_ids is None: model_ids = ()
     elif isinstance(model_ids, (str, unicode)): model_ids = (model_ids,)] *)
Definition norm_tmodel_ids (m : tmodel_arg) : list string :=
  match m with
  | TNone => []
  | TStr s => [s]
  | TSeq l => l
  end.

(** [if model_ids: q = q.filter(TModel.id.in_(model_ids))]. *)
Definition opt_tids (model_ids : list string) (v : string) : bool :=
  match model_ids with [] => true | _ => str_in v model_ids end.

(** [tobjects].  The query joins [File] to [TModel] through [File.tmodels];
    the later [join(Client)] has no ON clause and takes it from the table
    joined last, [TModel] ([TModel.client_id]), so the gender filter is on
    the client of the linked [TModel] row.  [query(File)] returns each
    [File] once. *)
Definition tobjects (db : Database) (protocol : arg) (model_ids : tmodel_arg)
  (groups subworld gender : arg) : result (list File) :=
  assert_validity db ;;;
  VALID_PROTOCOLS <- protocol_names db ;;
  let VALID_GROUPS := dev_eval in
  VALID_SUBWORLDS <- subworld_names db ;;
  let VALID_GENDERS := gender_choices in
  protocol <- check_validity protocol "protocol" (mkpyseq KList VALID_PROTOCOLS) (ASeq VALID_PROTOCOLS) ;;
  groups <- check_validity groups "group" VALID_GROUPS (AStr EmptyString) ;;
  subworld <- check_validity subworld "subworld" (mkpyseq KList VALID_SUBWORLDS) (AStr EmptyString) ;;
  gender <- check_validity gender "gender" VALID_GENDERS (AStr EmptyString) ;;
  let model_ids := norm_tmodel_ids model_ids in
  st <- sess db ;;
  Ok (sort_files
        (filter (fun f =>
           opt_subworld subworld (f_subworlds f)
           && existsb (fun t => str_in (t_id t) (f_tmodels f)
                                && opt_tids model_ids (t_id t)
                                && (if truthy gender
                                    then match tmodel_client st t with
                                         | Some c => opt_in gender (c_gender c)
                                         | None => false
                                         end
                                    else true))
                (tmodel_rows st))
           (file_rows st))).

Definition zobjects (db : Database) (protocol : arg) (model_ids : model_arg)
  (groups subworld gender : arg) : result (list File) :=
  assert_validity db ;;;
  let VALID_GROUPS := dev_eval in
  groups <- check_validity groups "group" VALID_GROUPS (AStr EmptyString) ;;
  objects db protocol ANone model_ids (AStr "world") ANone subworld gender.

(** ** Paths *)

Definition paths (db : Database) (ids : list nat) (prefix suffix : string)
  : result (list string) :=
  assert_validity db ;;;
  st <- sess db ;;
  let fobj := filter (fun f => nat_in (f_id f) ids) (file_rows st) in
  Ok (flat_map (fun p => map (fun k => make_path k prefix suffix)
                             (filter (fun k => Nat.eqb (f_id k) p) fobj)) ids).

(** The local [retval] of [reverse]: [None] while unbound.  [reverse] never
    assigns it, and the module namespace has no [retval] either. *)
Definition retval_extend (retval : option (list nat)) (xs : list nat)
  : result (option (list nat)) :=
  match retval with
  | None => Err (NameError "retval")
  | Some r => Ok (Some (r ++ xs)%list)
  end.

Definition retval_load (retval : option (list nat)) : result (list nat) :=
  match retval with
  | None => Err (NameError "retval")
  | Some r => Ok r
  end.

(** [for p in paths: retval.extend([k.id for k in fobj if k.path == p])] *)
Fixpoint reverse_loop (fobj : list File) (ps : list string)
  (retval : option (list nat)) : result (option (list nat)) :=
  match ps with
  | [] => Ok retval
  | p :: r =>
      retval' <- retval_extend retval
                   (map f_id (filter (fun k => String.eqb (f_path k) p) fobj)) ;;
      reverse_loop fobj r retval'
  end.

Definition reverse (db : Database) (ps : list string) : result (list nat) :=
  assert_validity db ;;;
  st <- sess db ;;
  let fobj := filter (fun f => str_in (f_path f) ps) (file_rows st) in
  retval <- reverse_loop fobj ps None ;;
  retval_load retval.

(** ** Predicates used in the statements *)

(** [sub] occurs in [s]. *)
Definition occurs_in (sub s : string) : Prop :=
  exists a b, s = a ++ sub ++ b.

(** A non-empty sequence of groups drawn from dev and eval. *)
Definition dev_or_eval (gs : list string) : Prop :=
  gs <> [] /\ forall g, In g gs -> g = "dev" \/ g = "eval".

(** What a selector argument, once validated with the default [''] (no
    filter), lets through: an absent or empty value lets everything through,
    a scalar exactly itself, a sequence its members. *)
Definition selects (a : arg) (x : string) : Prop :=
  match a with
  | ANone => True
  | AStr s => s = EmptyString \/ x = s
  | ASeq l => l = [] \/ In x l
  end.

(** The same for a relationship holding several names (a subworld join). *)
Definition selects_any (a : arg) (xs : list string) : Prop :=
  match a with
  | ANone => True
  | AStr s => s = EmptyString \/ In s xs
  | ASeq l => l = [] \/ exists x, In x xs /\ In x l
  end.

(** ** A small store

    Two dev clients, two world clients; one enrol and two probe protocol
    purposes of the male protocol. *)

Definition sample_store : store :=
  mkStore
    [ mkClient 1 "male" "dev" [];
      mkClient 2 "male" "dev" [];
      mkClient 3 "male" "world" ["onethird"];
      mkClient 4 "female" "world" ["twothirds"] ]
    [ mkFile 5 1 1 "p" 1 "mobile" "m001/s01/enrol" [] [1] [];
      mkFile 6 1 2 "r" 1 "mobile" "m001/s02/probe" [] [2] [];
      mkFile 7 2 2 "r" 1 "laptop" "m002/s02/probe" [] [2] [];
      mkFile 8 3 1 "p" 1 "mobile" "m003/s01/world" ["onethird"] [] ["100"];
      mkFile 9 4 1 "p" 2 "mobile" "f004/s01/world" ["twothirds"] [] [] ]
    ["male"; "female"]
    [ mkProtocolPurpose 1 "male" "dev" "enrol";
      mkProtocolPurpose 2 "male" "dev" "probe";
      mkProtocolPurpose 3 "male" "eval" "probe" ]
    ["onethird"; "twothirds"]
    [ mkTModel "100" 3 ].

Definition sample_db : Database :=
  mkDatabase "mobio" "/db/mobio.sql3" (Some sample_store).

Definition missing_db : Database :=
  mkDatabase "mobio" "/db/mobio.sql3" None.

Definition ok_or_nil {A} (x : result (list A)) : list A :=
  match x with Ok r => r | Err _ => [] end.

Example objects_all_sample :
  option_map (map f_id)
    (match objects sample_db ANone ANone MNone ANone ANone ANone ANone with
     | Ok r => Some r | Err _ => None end)
  = Some [8; 9; 5; 6; 7].
Proof. vm_compute. reflexivity. Qed.

Example objects_impostor_sample :
  option_map (map f_id)
    (match objects sample_db ANone (ASeq ["probe"]) (MSeq [1]) (ASeq ["dev"])
             (ASeq ["impostor"]) ANone ANone with
     | Ok r => Some r | Err _ => None end)
  = Some [7].
Proof. vm_compute. reflexivity. Qed.

Example tclients_sample :
  option_map (map c_id)
    (match tclients sample_db ANone (AStr "dev") (AStr "onethird") ANone with
     | Ok r => Some r | Err _ => None end)
  = Some [3].
Proof. vm_compute. reflexivity. Qed.

Example check_validity_bogus :
  check_validity (AStr "bogus") "gender" gender_choices ANone
  = Err (RuntimeError
           (String.concat EmptyString
              ["Invalid gender "; dquote; "bogus"; dquote;
               ". Valid values are ('male', 'female'), or lists/tuples of those"])).
Proof. reflexivity. Qed.

Example paths_sample :
  paths sample_db [5; 99; 5] "/data" ".wav"
  = Ok ["/data/m001/s01/enrol.wav"; "/data/m001/s01/enrol.wav"].
Proof. vm_compute. reflexivity. Qed.

Example reverse_sample : reverse sample_db [] = Err (NameError "retval").
Proof. reflexivity. Qed.

(** ** General lemmas *)

Lemma bind_ok {A B} (m : result A) (k : A -> result B) (b : B) :
  bind m k = Ok b -> exists a, m = Ok a /\ k a = Ok b.
Proof. destruct m as [a|e]; simpl; [eauto | discriminate]. Qed.

Ltac inv_binds :=
  repeat match goal with
         | H : bind _ _ = Ok _ |- _ =>
             let a := fresh "v" in let Ha := fresh "Hv" in
             apply bind_ok in H; destruct H as [a [Ha H]]; cbv beta zeta in H
         end.

Lemma str_in_true x l : str_in x l = true <-> In x l.
Proof.
  unfold str_in. rewrite existsb_exists. split.
  - intros [y [Hy E]]. apply String.eqb_eq in E. subst. exact Hy.
  - intros H. exists x. split; [exact H | apply String.eqb_refl].
Qed.

Lemma nat_in_true x l : nat_in x l = true <-> In x l.
Proof.
  unfold nat_in. rewrite existsb_exists. split.
  - intros [y [Hy E]]. apply Nat.eqb_eq in E. subst. exact Hy.
  - intros H. exists x. split; [exact H | apply Nat.eqb_refl].
Qed.

Lemma In_insert_by {A} (le : A -> A -> bool) a l x :
  In x (insert_by le a l) <-> x = a \/ In x l.
Proof.
  induction l as [|y r IH]; simpl.
  - intuition congruence.
  - destruct (le a y); simpl; [intuition congruence|]. rewrite IH.
    intuition congruence.
Qed.

Lemma In_sort_by {A} (le : A -> A -> bool) l x :
  In x (sort_by le l) <-> In x l.
Proof.
  induction l as [|y r IH]; simpl; [tauto|].
  rewrite In_insert_by, IH. intuition congruence.
Qed.

Lemma In_dedup_files l f : In f (dedup_files l) -> In f l.
Proof.
  induction l as [|g r IH]; simpl; [tauto|].
  destruct (existsb _ r); simpl; intuition.
Qed.

Lemma dedup_files_covers l f :
  In f l -> exists g, In g (dedup_files l) /\ f_id g = f_id f.
Proof.
  revert f. induction l as [|g r IH]; simpl; [tauto|].
  intros f [E0|H].
  - subst g.
    destruct (existsb (fun g0 => Nat.eqb (f_id g0) (f_id f)) r) eqn:E.
    + apply existsb_exists in E. destruct E as [h [Hh E]].
      apply Nat.eqb_eq in E. destruct (IH h Hh) as [k [Hk Ek]].
      exists k. split; [exact Hk | congruence].
    + exists f. simpl. auto.
  - destruct (IH f H) as [k [Hk Ek]].
    destruct (existsb _ r); [|simpl]; eauto.
Qed.

Lemma NoDup_dedup_files l : NoDup (map f_id (dedup_files l)).
Proof.
  induction l as [|g r IH]; simpl; [constructor|].
  destruct (existsb (fun h => Nat.eqb (f_id h) (f_id g)) r) eqn:E; [exact IH|].
  simpl. constructor; [|exact IH].
  intros Hin. apply in_map_iff in Hin. destruct Hin as [h [Eh Hh]].
  apply In_dedup_files in Hh.
  assert (existsb (fun h => Nat.eqb (f_id h) (f_id g)) r = true) as E'.
  { apply existsb_exists. exists h. split; [exact Hh | apply Nat.eqb_eq; exact Eh]. }
  congruence.
Qed.

(** With unique primary keys, the files of a list drawn from the store all
    survive [set()]. *)
Lemma In_dedup_files_unique st l f :
  NoDup (map f_id (file_rows st)) ->
  incl l (file_rows st) -> In f l -> In f (dedup_files l).
Proof.
  intros Hnd Hincl Hf.
  destruct (dedup_files_covers l f Hf) as [g [Hg Eg]].
  assert (g = f) as ->; [|exact Hg].
  apply In_dedup_files in Hg.
  assert (Hgs := Hincl g Hg). assert (Hfs := Hincl f Hf).
  clear - Hnd Hgs Hfs Eg. induction (file_rows st) as [|h r IH]; simpl in *; [tauto|].
  inversion Hnd as [|x y Hnotin Hnd']; subst.
  destruct Hgs as [<-|Hgs], Hfs as [<-|Hfs]; auto.
  - exfalso. apply Hnotin. rewrite Eg. apply in_map. exact Hfs.
  - exfalso. apply Hnotin. rewrite <- Eg. apply in_map. exact Hgs.
Qed.

Lemma In_file_query st p f :
  In f (file_query st p) <->
  In f (file_rows st) /\ exists c, file_client st f = Some c /\ p f c = true.
Proof.
  unfold file_query, sort_files. rewrite In_sort_by, filter_In.
  destruct (file_client st f) as [c|]; split.
  - intros [H1 H2]. eauto.
  - intros [H1 [c' [E H2]]]. inversion E; subst. auto.
  - intros [_ H]; discriminate.
  - intros [_ [c' [E _]]]; discriminate.
Qed.

Lemma file_query_incl st p : incl (file_query st p) (file_rows st).
Proof. intros f Hf. apply In_file_query in Hf. tauto. Qed.

Lemma In_when b l x : In x (when b l) <-> b = true /\ In x l.
Proof. destruct b; simpl; intuition discriminate. Qed.

(** ** The validator *)

Lemma string_app_assoc (a b c : string) : (a ++ b) ++ c = a ++ (b ++ c).
Proof. induction a as [|ch a IH]; simpl; [reflexivity | rewrite IH; reflexivity]. Qed.

Lemma check_elems_ok xs obj valid :
  (forall k, In k xs -> In k (ps_elems valid)) -> check_elems xs obj valid = Ok tt.
Proof.
  induction xs as [|k r IH]; simpl; intros H; [reflexivity|].
  assert (str_in k (ps_elems valid) = true) as -> by (apply str_in_true; auto).
  apply IH. auto.
Qed.

Lemma check_elems_bad xs obj valid :
  (exists k, In k xs /\ ~ In k (ps_elems valid)) ->
  exists k, In k xs /\ ~ In k (ps_elems valid) /\
            check_elems xs obj valid = Err (RuntimeError (invalid_msg obj k valid)).
Proof.
  induction xs as [|k r IH]; simpl; intros [k' [Hin Hnot]]; [contradiction|].
  destruct (str_in k (ps_elems valid)) eqn:E.
  - apply str_in_true in E. destruct Hin as [<-|Hin]; [contradiction|].
    destruct IH as [k'' [H1 [H2 H3]]]; [eauto|]. eauto.
  - exists k. split; [auto|]. split; [|reflexivity].
    intros H. apply str_in_true in H. congruence.
Qed.

Lemma invalid_msg_names obj k valid :
  occurs_in (dquote ++ k ++ dquote) (invalid_msg obj k valid) /\
  occurs_in obj (invalid_msg obj k valid) /\
  occurs_in (py_repr_seq valid) (invalid_msg obj k valid).
Proof.
  unfold invalid_msg, occurs_in. split; [|split].
  - exists ("Invalid " ++ obj ++ " ").
    exists (". Valid values are " ++ py_repr_seq valid ++ ", or lists/tuples of those").
    rewrite !string_app_assoc. reflexivity.
  - exists "Invalid ".
    exists (" " ++ dquote ++ k ++ dquote ++ ". Valid values are "
              ++ py_repr_seq valid ++ ", or lists/tuples of those").
    reflexivity.
  - exists ("Invalid " ++ obj ++ " " ++ dquote ++ k ++ dquote ++ ". Valid values are ").
    exists ", or lists/tuples of those".
    rewrite !string_app_assoc. reflexivity.
Qed.

(** C6: [__check_validity__] returns the default on an absent or empty value,
    wraps a scalar into a one-element tuple and validates that, returns a
    sequence of valid values unchanged, and on a value outside the valid set
    raises a [RuntimeError] whose message names that value (quoted), the axis
    name and the rendering of the full valid set. *)
Theorem check_validity_contract (obj : string) (valid : pyseq) (default : arg) :
  (forall l, truthy l = false -> check_validity l obj valid default = Ok default) /\
  (forall s, s <> EmptyString ->
     check_validity (AStr s) obj valid default
     = check_validity (ASeq [s]) obj valid default) /\
  (forall xs, xs <> [] -> (forall k, In k xs -> In k (ps_elems valid)) ->
     check_validity (ASeq xs) obj valid default = Ok (ASeq xs)) /\
  (forall xs, (exists k, In k xs /\ ~ In k (ps_elems valid)) ->
     exists k msg, In k xs /\ ~ In k (ps_elems valid) /\
       check_validity (ASeq xs) obj valid default = Err (RuntimeError msg) /\
       occurs_in (dquote ++ k ++ dquote) msg /\ occurs_in obj msg /\
       occurs_in (py_repr_seq valid) msg).
Proof.
  split; [|split; [|split]].
  - intros l H. unfold check_validity. rewrite H. reflexivity.
  - intros s Hs. unfold check_validity. simpl.
    destruct (String.eqb s EmptyString) eqn:E.
    + apply String.eqb_eq in E. contradiction.
    + reflexivity.
  - intros xs Hne Hall. unfold check_validity.
    destruct xs as [|x r]; [contradiction|]. simpl negb. cbv iota beta.
    rewrite (check_elems_ok _ obj valid Hall). reflexivity.
  - intros xs Hbad.
    destruct (check_elems_bad xs obj valid Hbad) as [k [H1 [H2 H3]]].
    exists k, (invalid_msg obj k valid). split; [exact H1|]. split; [exact H2|].
    split; [|apply invalid_msg_names].
    unfold check_validity. destruct xs as [|x r]; [contradiction|].
    simpl negb. cbv iota beta. rewrite H3. reflexivity.
Qed.

(** ** T-norm and Z-norm clients *)

Lemma clients_world db protocol subworld gender cs :
  clients db protocol (AStr "world") subworld gender = Ok cs ->
  forall c, In c cs -> c_sgroup c = "world".
Proof.
  unfold clients. intros H. inv_binds.
  simpl in Hv3. injection Hv3 as <-.
  injection H as <-. intros c Hc.
  apply In_sort_by, filter_In in Hc. destruct Hc as [_ Hc].
  apply andb_prop in Hc as [Hc _]. apply andb_prop in Hc as [Hc _].
  apply andb_prop in Hc as [_ Hc]. simpl in Hc.
  apply Bool.orb_prop in Hc as [Hc|Hc]; [apply String.eqb_eq; exact Hc | discriminate].
Qed.

(** C2: every client returned by [tclients] or [zclients] belongs to the
    world group, and the [groups] argument, once it passes validation
    against (dev, eval), has no effect on the result. *)
Theorem tclients_zclients_world (db : Database) (protocol groups subworld gender : arg) :
  (forall cs, tclients db protocol groups subworld gender = Ok cs ->
     forall c, In c cs -> c_sgroup c = "world") /\
  (forall cs, zclients db protocol groups subworld gender = Ok cs ->
     forall c, In c cs -> c_sgroup c = "world") /\
  (forall v, check_validity groups "group" dev_eval (AStr EmptyString) = Ok v ->
     tclients db protocol groups subworld gender
     = tclients db protocol ANone subworld gender /\
     zclients db protocol groups subworld gender
     = zclients db protocol ANone subworld gender).
Proof.
  split; [|split].
  - intros cs H. unfold tclients in H. inv_binds. eapply clients_world; eauto.
  - intros cs H. unfold zclients in H. inv_binds. eapply clients_world; eauto.
  - intros v Hv. split.
    + unfold tclients.
      destruct (protocol_names db); cbn -[check_validity clients]; [|reflexivity].
      destruct (subworld_names db); cbn -[check_validity clients]; [|reflexivity].
      destruct (check_validity protocol _ _ _); cbn -[check_validity clients];
        [|reflexivity].
      rewrite Hv. reflexivity.
    + unfold zclients.
      destruct (assert_validity db); cbn -[check_validity clients]; [|reflexivity].
      rewrite Hv. reflexivity.
Qed.

(** ** Scalar model ids *)

(** C9: a non-iterable model id [m] is handled as the one-element sequence
    [[m]]: [objects] gives the same result for both, and the normalised ids
    have length one, the case in which the impostor branch excludes the
    model's own files. *)
Theorem objects_scalar_model_id (db : Database) (protocol purposes groups classes subworld gender : arg)
  (m : nat) :
  objects db protocol purposes (MScalar m) groups classes subworld gender
  = objects db protocol purposes (MSeq [m]) groups classes subworld gender /\
  norm_model_ids (MScalar m) = [m] /\
  length (norm_model_ids (MScalar m)) = 1.
Proof. split; [|split]; reflexivity. Qed.

(** ** T-norm models *)

(** C10: on a connected store, [tmodels] returns the same list for any two
    valid [protocol] values and any two valid [groups] values: both are
    validated and then unused by the query. *)
Theorem tmodels_ignores_protocol_groups (db : Database) (st : store)
  (p1 p2 g1 g2 subworld gender vp1 vp2 vg1 vg2 : arg) :
  session db = Some st ->
  check_validity p1 "protocol" (mkpyseq KList (protocol_rows st)) (AStr EmptyString) = Ok vp1 ->
  check_validity p2 "protocol" (mkpyseq KList (protocol_rows st)) (AStr EmptyString) = Ok vp2 ->
  check_validity g1 "group" dev_eval (AStr EmptyString) = Ok vg1 ->
  check_validity g2 "group" dev_eval (AStr EmptyString) = Ok vg2 ->
  tmodels db p1 g1 subworld gender = tmodels db p2 g2 subworld gender.
Proof.
  intros Hs Hp1 Hp2 Hg1 Hg2.
  unfold tmodels, protocol_names, protocols, subworld_names, subworlds,
    assert_validity, is_valid, sess.
  rewrite Hs. cbn -[check_validity].
  rewrite Hp1, Hp2. cbn -[check_validity]. rewrite Hg1, Hg2. reflexivity.
Qed.

Lemma tmodels_ignores_protocol_groups_witness :
  session sample_db = Some sample_store /\
  tmodels sample_db ANone (AStr "dev") (AStr "onethird") ANone
  = tmodels sample_db (AStr "male") (ASeq ["dev"; "eval"]) (AStr "onethird") ANone.
Proof.
  split; [reflexivity|].
  apply (tmodels_ignores_protocol_groups sample_db sample_store ANone (AStr "male")
           (AStr "dev") (ASeq ["dev"; "eval"]) (AStr "onethird") ANone
           (AStr EmptyString) (ASeq ["male"]) (ASeq ["dev"]) (ASeq ["dev"; "eval"]));
    reflexivity.
Defined.

(** ** Files returned by [objects] *)

Lemma check_validity_seq l obj valid default v :
  l <> [] -> check_validity (ASeq l) obj valid default = Ok v -> v = ASeq l.
Proof.
  intros Hne H. unfold check_validity in H. destruct l as [|x r]; [contradiction|].
  simpl in H. apply bind_ok in H. destruct H as [_ [_ H]]. congruence.
Qed.

(** C4: the list returned by [objects] holds each [File] identity (primary
    key) at most once. *)
Theorem objects_no_duplicates (db : Database) (protocol purposes : arg) (model_ids : model_arg)
  (groups classes subworld gender : arg) (r : list File) :
  objects db protocol purposes model_ids groups classes subworld gender = Ok r ->
  NoDup (map f_id r).
Proof.
  unfold objects. intros H. inv_binds. injection H as <-. apply NoDup_dedup_files.
Qed.

Lemma objects_no_duplicates_witness :
  exists r, objects sample_db ANone ANone MNone ANone ANone ANone ANone = Ok r /\
            NoDup (map f_id r).
Proof.
  exists (ok_or_nil (objects sample_db ANone ANone MNone ANone ANone ANone ANone)).
  split; [vm_compute; reflexivity|].
  apply (objects_no_duplicates sample_db ANone ANone MNone ANone ANone ANone ANone).
  vm_compute. reflexivity.
Defined.

(** C8: on a connected store (file ids are primary keys), every [File]
    returned by [objects] with groups restricted to world is also returned
    by the same call with the default, full group axis. *)
Theorem objects_world_subset (db : Database) (st : store) (protocol purposes : arg)
  (model_ids : model_arg) (classes subworld gender : arg) (r1 : list File) :
  session db = Some st ->
  NoDup (map f_id (file_rows st)) ->
  objects db protocol purposes model_ids (ASeq ["world"]) classes subworld gender = Ok r1 ->
  exists r2, objects db protocol purposes model_ids ANone classes subworld gender = Ok r2
             /\ incl r1 r2.
Proof.
  intros Hs Hnd H. unfold objects in H |- *. inv_binds.
  rewrite Hv, Hv0, Hv1. cbn [bind]. rewrite Hv2, Hv3. cbn [bind].
  cbn [check_validity truthy negb bind]. rewrite Hv5, Hv6, Hv7. cbn [bind].
  rewrite Hv8. cbn [bind].
  eexists; split; [reflexivity|].
  vm_compute in Hv4. injection Hv4 as <-.
  unfold sess in Hv8. rewrite Hs in Hv8. injection Hv8 as <-.
  injection H as <-. intros f Hf.
  apply In_dedup_files in Hf.
  apply in_app_iff in Hf. destruct Hf as [Hf|Hf].
  2:{ exfalso. exact Hf. }
  apply (In_dedup_files_unique st); [exact Hnd| |].
  - intros g Hg. apply in_app_iff in Hg. destruct Hg as [Hg|Hg].
    + apply In_when in Hg. destruct Hg as [_ Hg]. unfold world_branch in Hg.
      eapply file_query_incl; exact Hg.
    + rewrite !in_app_iff, !In_when in Hg.
      destruct Hg as [[_ Hg]|[[_ Hg]|[_ Hg]]];
        [unfold enrol_branch in Hg | unfold client_branch in Hg
        | unfold impostor_branch in Hg]; eapply file_query_incl; exact Hg.
  - apply in_app_iff. left. apply In_when. split; [reflexivity | exact Hf].
Qed.

Lemma objects_world_subset_witness :
  exists r2,
    objects sample_db ANone ANone MNone ANone ANone ANone ANone = Ok r2 /\
    incl (ok_or_nil (objects sample_db ANone ANone MNone (ASeq ["world"]) ANone ANone ANone)) r2.
Proof.
  apply (objects_world_subset sample_db sample_store ANone ANone MNone ANone ANone ANone).
  - reflexivity.
  - vm_compute. repeat constructor; simpl; intuition discriminate.
  - vm_compute. reflexivity.
Defined.

(** ** The impostor branch and the model ids *)

(** C1, as stated, fails: with classes (client, impostor), purpose probe,
    group dev and the single model id 1, the client-probe branch returns the
    probe file 6 of client 1, so a [File] whose client_id is the model id is
    in the result. *)
Lemma objects_impostor_counterexample :
  exists r,
    objects sample_db ANone (ASeq ["probe"]) (MSeq [1]) (ASeq ["dev"])
      (ASeq ["client"; "impostor"]) ANone ANone = Ok r /\
    exists f, In f r /\ f_id f = 6 /\ f_client_id f = 1.
Proof.
  set (r := ok_or_nil (objects sample_db ANone (ASeq ["probe"]) (MSeq [1]) (ASeq ["dev"])
                         (ASeq ["client"; "impostor"]) ANone ANone)).
  exists r. split; [vm_compute; reflexivity|].
  exists (mkFile 6 1 2 "r" 1 "mobile" "m001/s02/probe" [] [2] []).
  split; [|split; reflexivity]. vm_compute. tauto.
Qed.

Lemma pp_match_true st protocol groups purpose f :
  pp_match st protocol groups purpose f = true ->
  exists pp, In pp (protocol_purpose_rows st) /\ In (pp_id pp) (f_protocol_purposes f) /\
             In (pp_protocol pp) (members protocol) /\
             In (pp_sgroup pp) (members groups) /\ pp_purpose pp = purpose.
Proof.
  unfold pp_match. intros H. apply existsb_exists in H. destruct H as [pp [Hpp H]].
  rewrite !andb_true_iff in H. destruct H as [[[[H1 _] H3] H4] H5].
  apply nat_in_true in H1. apply str_in_true in H3, H4. apply String.eqb_eq in H5.
  exists pp. auto.
Qed.

Lemma pp_branch_sound st (q : File -> Client -> bool) protocol groups purpose gender f :
  (forall f c, q f c = true ->
     pp_match st protocol groups purpose f = true /\ opt_in gender (c_gender c) = true) ->
  In f (file_query st q) ->
  In f (file_rows st) /\
  (exists c, file_client st f = Some c /\ opt_in gender (c_gender c) = true) /\
  exists pp, In pp (protocol_purpose_rows st) /\ In (pp_id pp) (f_protocol_purposes f) /\
             In (pp_protocol pp) (members protocol) /\
             In (pp_sgroup pp) (members groups) /\ pp_purpose pp = purpose.
Proof.
  intros Hq Hf. rewrite In_file_query in Hf. destruct Hf as [Hin [c [Ec Hp]]].
  apply Hq in Hp as [Hpp Hg]. apply pp_match_true in Hpp.
  split; [exact Hin|]. split; [exists c; auto | exact Hpp].
Qed.

Lemma impostor_branch_excludes st protocol groups gender m f :
  In f (impostor_branch st protocol groups gender [m]) -> f_client_id f <> m.
Proof.
  unfold impostor_branch. rewrite In_file_query. intros [_ [c [_ Hp]]] E.
  rewrite E in Hp. simpl in Hp. rewrite Nat.eqb_refl in Hp.
  rewrite !andb_false_r in Hp. discriminate.
Qed.

Lemma impostor_branch_no_filter st protocol groups gender ids :
  length ids <> 1 ->
  impostor_branch st protocol groups gender ids
  = impostor_branch st protocol groups gender [].
Proof.
  intros Hl. unfold impostor_branch.
  apply Nat.eqb_neq in Hl. rewrite Hl. reflexivity.
Qed.

Lemma dev_or_eval_not_world gs : dev_or_eval gs -> str_in "world" gs = false.
Proof.
  intros [_ H]. destruct (str_in "world" gs) eqn:E; [|reflexivity].
  apply str_in_true, H in E. destruct E; discriminate.
Qed.

(** C1, amended: for sequences of groups drawn from {dev, eval}, purposes
    containing probe and classes containing impostor,
    (a) when exactly one model id [m] is given, the impostor branch
        contributes no [File] whose client_id is [m]; so on a connected
        store such a [File] is in the result only through the enrol branch
        (enrol among the purposes, and the file has an enrol protocol
        purpose of one of the groups) or the client-probe branch (client
        among the classes, and the file has a probe protocol purpose of one
        of the groups), and with purposes (probe) and classes (impostor)
        none is returned;
    (b) when zero or two-or-more model ids are given, the impostor branch is
        not narrowed: every file of the same call with purposes (probe),
        classes (impostor) and no model ids is in the result. *)
Theorem objects_impostor_model_filter :
  (forall st protocol groups gender m f,
     In f (impostor_branch st protocol groups gender [m]) -> f_client_id f <> m) /\
  (forall db st protocol ps model_ids gs cs subworld gender r m f,
     session db = Some st ->
     dev_or_eval gs -> In "probe" ps -> In "impostor" cs ->
     norm_model_ids model_ids = [m] ->
     objects db protocol (ASeq ps) model_ids (ASeq gs) (ASeq cs) subworld gender = Ok r ->
     In f r -> f_client_id f = m ->
     (In "enrol" ps /\
      exists pp, In pp (protocol_purpose_rows st) /\ In (pp_id pp) (f_protocol_purposes f) /\
                 In (pp_sgroup pp) gs /\ pp_purpose pp = "enrol") \/
     (In "client" cs /\
      exists pp, In pp (protocol_purpose_rows st) /\ In (pp_id pp) (f_protocol_purposes f) /\
                 In (pp_sgroup pp) gs /\ pp_purpose pp = "probe")) /\
  (forall db st protocol ps model_ids gs cs subworld gender r0 r,
     session db = Some st ->
     NoDup (map f_id (file_rows st)) ->
     dev_or_eval gs -> In "probe" ps -> In "impostor" cs ->
     length (norm_model_ids model_ids) <> 1 ->
     objects db protocol (ASeq ["probe"]) MNone (ASeq gs) (ASeq ["impostor"])
       subworld gender = Ok r0 ->
     objects db protocol (ASeq ps) model_ids (ASeq gs) (ASeq cs) subworld gender = Ok r ->
     incl r0 r).
Proof.
  split; [exact impostor_branch_excludes|]. split.
  - intros db st protocol ps model_ids gs cs subworld gender r m f Hs Hgs Hp Hi Hm H Hf Ef.
    unfold objects in H. inv_binds. injection H as <-.
    assert (Hgs' := Hgs). destruct Hgs' as [Hne _].
    apply (check_validity_seq _ _ _ _ _ Hne) in Hv4. subst v4.
    unfold sess in Hv8. rewrite Hs in Hv8. injection Hv8 as <-.
    assert (Hq : forall q purpose,
      (forall f c, q f c = true ->
         pp_match st v2 (ASeq gs) purpose f = true /\ opt_in v7 (c_gender c) = true) ->
      In f (file_query st q) ->
      exists pp, In pp (protocol_purpose_rows st) /\ In (pp_id pp) (f_protocol_purposes f) /\
                 In (pp_sgroup pp) gs /\ pp_purpose pp = purpose).
    { intros q purpose Hqp Hfq.
      destruct (pp_branch_sound st q v2 (ASeq gs) purpose v7 f Hqp Hfq)
        as [_ [_ [pp [H1 [H2 [_ [H4 H5]]]]]]].
      exists pp. auto. }
    apply In_dedup_files in Hf. rewrite Hm in Hf. cbn [members] in Hf.
    rewrite (dev_or_eval_not_world gs Hgs) in Hf.
    rewrite !in_app_iff, !In_when in Hf.
    destruct Hf as [[Hc _]|[[Hc Hf]|[[Hc Hf]|[_ Hf]]]].
    + discriminate.
    + apply andb_prop in Hc as [_ Hc].
      destruct ps as [|p ps']; [contradiction|].
      apply check_validity_seq in Hv3; [subst v3 | discriminate].
      left. split; [apply str_in_true; exact Hc|].
      unfold enrol_branch in Hf. eapply Hq. 2: exact Hf.
      intros f' c' Hp'. rewrite !andb_true_iff in Hp'. tauto.
    + apply andb_prop in Hc as [_ Hc].
      destruct cs as [|c cs']; [contradiction|].
      apply check_validity_seq in Hv5; [subst v5 | discriminate].
      right. split; [apply str_in_true; exact Hc|].
      unfold client_branch in Hf. eapply Hq. 2: exact Hf.
      intros f' c' Hp'. rewrite !andb_true_iff in Hp'. tauto.
    + exfalso. exact (impostor_branch_excludes _ _ _ _ _ _ Hf Ef).
  - intros db st protocol ps model_ids gs cs subworld gender r0 r Hs Hnd Hgs Hp Hi Hl H0 H.
    unfold objects in H0, H. inv_binds. injection H0 as <-. injection H as <-.
    assert (Hgs' := Hgs). destruct Hgs' as [Hne _].
    apply (check_validity_seq _ _ _ _ _ Hne) in Hv4, Hv14. subst v4 v14.
    assert (ps <> []) as Hpne by (destruct ps; [contradiction | discriminate]).
    assert (cs <> []) as Hcne by (destruct cs; [contradiction | discriminate]).
    apply (check_validity_seq _ _ _ _ _ Hpne) in Hv3. subst v3.
    apply (check_validity_seq _ _ _ _ _ Hcne) in Hv5. subst v5.
    apply check_validity_seq in Hv13; [subst v13 | discriminate].
    apply check_validity_seq in Hv15; [subst v15 | discriminate].
    (* both calls validated protocol, subworld and gender identically *)
    rewrite Hv0 in Hv10. injection Hv10 as <-. rewrite Hv1 in Hv11. injection Hv11 as <-.
    rewrite Hv2 in Hv12. injection Hv12 as <-. rewrite Hv6 in Hv16. injection Hv16 as <-.
    rewrite Hv7 in Hv17. injection Hv17 as <-. rewrite Hv8 in Hv18. injection Hv18 as <-.
    unfold sess in Hv8. rewrite Hs in Hv8. injection Hv8 as <-.
    intros f Hf. apply In_dedup_files in Hf. cbn [members] in Hf.
    rewrite (dev_or_eval_not_world gs Hgs) in Hf.
    rewrite !in_app_iff, !In_when in Hf.
    destruct Hf as [[Hc _]|[[Hc _]|[[Hc _]|[Hc Hf]]]];
      [discriminate | rewrite andb_false_r in Hc; discriminate
      | rewrite andb_false_r in Hc; discriminate |].
    apply (In_dedup_files_unique st); [exact Hnd| |].
    + intros g Hg. rewrite !in_app_iff, !In_when in Hg.
      destruct Hg as [[_ Hg]|[[_ Hg]|[[_ Hg]|[_ Hg]]]];
        [unfold world_branch in Hg | unfold enrol_branch in Hg
        | unfold client_branch in Hg | unfold impostor_branch in Hg];
        eapply file_query_incl; exact Hg.
    + rewrite !in_app_iff, !In_when. right; right; right.
      cbn [members] in Hc |- *. split.
      * destruct (str_in "dev" gs || str_in "eval" gs); [|simpl in Hc; discriminate].
        simpl. apply andb_true_intro. split; apply str_in_true; assumption.
      * rewrite impostor_branch_no_filter by exact Hl. exact Hf.
Qed.

Lemma objects_impostor_model_filter_witness :
  (exists r, objects sample_db ANone (ASeq ["enrol"; "probe"]) (MSeq [1]) (ASeq ["dev"])
               (ASeq ["impostor"]) ANone ANone = Ok r /\
     (In (mkFile 5 1 1 "p" 1 "mobile" "m001/s01/enrol" [] [1] []) r ->
      (In "enrol" ["enrol"; "probe"] /\
       exists pp, In pp (protocol_purpose_rows sample_store) /\
                  In (pp_id pp) (f_protocol_purposes (mkFile 5 1 1 "p" 1 "mobile" "m001/s01/enrol" [] [1] [])) /\
                  In (pp_sgroup pp) ["dev"] /\ pp_purpose pp = "enrol") \/
      (In "client" ["impostor"] /\
       exists pp, In pp (protocol_purpose_rows sample_store) /\
                  In (pp_id pp) (f_protocol_purposes (mkFile 5 1 1 "p" 1 "mobile" "m001/s01/enrol" [] [1] [])) /\
                  In (pp_sgroup pp) ["dev"] /\ pp_purpose pp = "probe"))) /\
  incl (ok_or_nil (objects sample_db ANone (ASeq ["probe"]) MNone (ASeq ["dev"])
                     (ASeq ["impostor"]) ANone ANone))
       (ok_or_nil (objects sample_db ANone (ASeq ["probe"]) (MSeq [1; 2]) (ASeq ["dev"])
                     (ASeq ["impostor"]) ANone ANone)).
Proof.
  destruct objects_impostor_model_filter as [_ [Ha Hb]]. split.
  - exists (ok_or_nil (objects sample_db ANone (ASeq ["enrol"; "probe"]) (MSeq [1])
                         (ASeq ["dev"]) (ASeq ["impostor"]) ANone ANone)).
    split; [vm_compute; reflexivity|]. intros Hf.
    apply (Ha sample_db sample_store ANone ["enrol"; "probe"] (MSeq [1]) ["dev"] ["impostor"]
             ANone ANone
             (ok_or_nil (objects sample_db ANone (ASeq ["enrol"; "probe"]) (MSeq [1])
                           (ASeq ["dev"]) (ASeq ["impostor"]) ANone ANone)) 1
             (mkFile 5 1 1 "p" 1 "mobile" "m001/s01/enrol" [] [1] [])).
    + reflexivity.
    + split; [discriminate|]. intros g [<-|[]]. left. reflexivity.
    + right. left. reflexivity.
    + left. reflexivity.
    + reflexivity.
    + vm_compute. reflexivity.
    + exact Hf.
    + reflexivity.
  - apply (Hb sample_db sample_store ANone ["probe"] (MSeq [1; 2]) ["dev"] ["impostor"]
             ANone ANone).
    + reflexivity.
    + vm_compute. repeat constructor; simpl; intuition discriminate.
    + split; [discriminate|]. intros g [<-|[]]. left. reflexivity.
    + left. reflexivity.
    + left. reflexivity.
    + simpl. discriminate.
    + vm_compute. reflexivity.
    + vm_compute. reflexivity.
Defined.

(** ** Paths *)

Lemma filter_id_in_ids (L : list File) ids p :
  In p ids ->
  filter (fun k => Nat.eqb (f_id k) p) (filter (fun f => nat_in (f_id f) ids) L)
  = filter (fun k => Nat.eqb (f_id k) p) L.
Proof.
  intros Hp. induction L as [|a r IH]; simpl; [reflexivity|].
  destruct (Nat.eqb (f_id a) p) eqn:E.
  - apply Nat.eqb_eq in E.
    assert (nat_in (f_id a) ids = true) as -> by (apply nat_in_true; congruence).
    simpl. rewrite E, Nat.eqb_refl, IH. reflexivity.
  - destruct (nat_in (f_id a) ids); simpl; [rewrite E|]; exact IH.
Qed.

Lemma filter_id_absent (L : list File) p :
  ~ In p (map f_id L) -> filter (fun k => Nat.eqb (f_id k) p) L = [].
Proof.
  induction L as [|a r IH]; simpl; intros H; [reflexivity|].
  destruct (Nat.eqb (f_id a) p) eqn:E.
  - apply Nat.eqb_eq in E. tauto.
  - apply IH. tauto.
Qed.

Lemma filter_id_unique (L : list File) p :
  NoDup (map f_id L) ->
  filter (fun k => Nat.eqb (f_id k) p) L
  = match find (fun f => Nat.eqb (f_id f) p) L with Some f => [f] | None => [] end.
Proof.
  induction L as [|a r IH]; simpl; intros Hnd; [reflexivity|].
  inversion Hnd as [|x y Hnotin Hnd']; subst.
  destruct (Nat.eqb (f_id a) p) eqn:E.
  - apply Nat.eqb_eq in E. subst p. rewrite filter_id_absent by exact Hnotin.
    reflexivity.
  - apply IH. exact Hnd'.
Qed.

Lemma find_id_present (L : list File) f :
  NoDup (map f_id L) -> In f L ->
  find (fun g => Nat.eqb (f_id g) (f_id f)) L = Some f.
Proof.
  induction L as [|a r IH]; simpl; intros Hnd Hf; [contradiction|].
  inversion Hnd as [|x y Hnotin Hnd']; subst.
  destruct Hf as [<-|Hf]; [rewrite Nat.eqb_refl; reflexivity|].
  destruct (Nat.eqb (f_id a) (f_id f)) eqn:E.
  - apply Nat.eqb_eq in E. exfalso. apply Hnotin. rewrite E. apply in_map. exact Hf.
  - apply IH; assumption.
Qed.

Lemma find_id_absent (L : list File) p :
  (forall f, In f L -> f_id f <> p) ->
  find (fun g => Nat.eqb (f_id g) p) L = None.
Proof.
  induction L as [|a r IH]; simpl; intros H; [reflexivity|].
  destruct (Nat.eqb (f_id a) p) eqn:E.
  - apply Nat.eqb_eq in E. exfalso. exact (H a (or_introl eq_refl) E).
  - apply IH. auto.
Qed.

(** C5: on a connected store (file ids are primary keys), [paths] returns,
    in the order of the input ids and repeating repeated ids, the path of
    the [File] of each id; an id without a [File] contributes nothing.  In
    particular [paths([5, 99, 5])], with a [File] of id 5 and none of id 99,
    is exactly the path of file 5 twice. *)
Theorem paths_input_order (db : Database) (st : store) :
  session db = Some st ->
  NoDup (map f_id (file_rows st)) ->
  (forall ids prefix suffix,
     paths db ids prefix suffix
     = Ok (flat_map (fun p => match find (fun f => Nat.eqb (f_id f) p) (file_rows st) with
                              | Some f => [make_path f prefix suffix]
                              | None => []
                              end) ids)) /\
  (forall f5 prefix suffix,
     In f5 (file_rows st) -> f_id f5 = 5 ->
     (forall f, In f (file_rows st) -> f_id f <> 99) ->
     paths db [5; 99; 5] prefix suffix
     = Ok [make_path f5 prefix suffix; make_path f5 prefix suffix]).
Proof.
  intros Hs Hnd.
  assert (Hgen : forall ids prefix suffix,
     paths db ids prefix suffix
     = Ok (flat_map (fun p => match find (fun f => Nat.eqb (f_id f) p) (file_rows st) with
                              | Some f => [make_path f prefix suffix]
                              | None => []
                              end) ids)).
  { intros ids prefix suffix.
    unfold paths, assert_validity, is_valid, sess. rewrite Hs. cbn [bind].
    f_equal.
    assert (Hsub : forall l, incl l ids ->
      flat_map (fun p => map (fun k => make_path k prefix suffix)
                   (filter (fun k => Nat.eqb (f_id k) p)
                      (filter (fun f => nat_in (f_id f) ids) (file_rows st)))) l
      = flat_map (fun p => match find (fun f => Nat.eqb (f_id f) p) (file_rows st) with
                           | Some f => [make_path f prefix suffix]
                           | None => []
                           end) l).
    { induction l as [|p l IH]; simpl; intros Hincl; [reflexivity|].
      rewrite filter_id_in_ids by (apply Hincl; left; reflexivity).
      rewrite filter_id_unique by exact Hnd.
      rewrite IH by (intros x Hx; apply Hincl; right; exact Hx).
      destruct (find _ _); reflexivity. }
    apply Hsub. intros x Hx. exact Hx. }
  split; [exact Hgen|].
  intros f5 prefix suffix Hin Hid Hno. rewrite Hgen. simpl.
  rewrite <- Hid, (find_id_present _ _ Hnd Hin), Hid, (find_id_absent _ 99 Hno).
  reflexivity.
Qed.

Lemma paths_input_order_witness :
  paths sample_db [5; 99; 5] "/data" ".wav"
  = Ok [make_path (mkFile 5 1 1 "p" 1 "mobile" "m001/s01/enrol" [] [1] []) "/data" ".wav";
        make_path (mkFile 5 1 1 "p" 1 "mobile" "m001/s01/enrol" [] [1] []) "/data" ".wav"].
Proof.
  destruct (paths_input_order sample_db sample_store) as [_ H].
  - reflexivity.
  - vm_compute. repeat constructor; simpl; intuition discriminate.
  - apply H.
    + simpl. left. reflexivity.
    + reflexivity.
    + intros f Hf. simpl in Hf.
      repeat (destruct Hf as [<-|Hf]; [simpl; discriminate|]). contradiction.
Defined.

(** ** Reverse lookup *)

(** C3 (code defect): on a connected store [reverse] never returns a list:
    its local [retval] is never bound, so the first [retval.extend], or the
    final [return retval] on an empty input, raises [NameError]. *)
Theorem reverse_name_error (db : Database) (st : store) (ps : list string) :
  session db = Some st -> reverse db ps = Err (NameError "retval").
Proof.
  intros Hs. unfold reverse, assert_validity, is_valid, sess. rewrite Hs.
  cbn [bind]. destruct ps; reflexivity.
Qed.

Lemma reverse_name_error_witness :
  reverse sample_db [] = Err (NameError "retval") /\
  reverse sample_db ["m001/s01/enrol"] = Err (NameError "retval").
Proof.
  split; apply (reverse_name_error sample_db sample_store); reflexivity.
Defined.

(** ** Unavailable store *)

Lemma unavailable_msg_names (db : Database) :
  occurs_in ("'" ++ sqlite_file db ++ "'") (unavailable_msg db) /\
  occurs_in "Create it and then try re-connecting using Database.connect()"
    (unavailable_msg db).
Proof.
  unfold unavailable_msg, occurs_in. split.
  - exists ("Database '" ++ info_name db ++ "' cannot be found at expected location ").
    exists ". Create it and then try re-connecting using Database.connect()".
    rewrite !string_app_assoc. reflexivity.
  - exists ("Database '" ++ info_name db ++ "' cannot be found at expected location '"
              ++ sqlite_file db ++ "'. ").
    exists EmptyString.
    rewrite !string_app_assoc. reflexivity.
Qed.

(** C7: when [self.session] is [None], every query-bearing operation raises
    the [RuntimeError] of [assert_validity] (not the [AttributeError] a query
    on the missing session would raise), whatever its arguments; the message
    names the expected location of the database file and says to create it
    and re-connect. *)
Theorem unavailable_store_fails_first (db : Database) :
  session db = None ->
  let E := RuntimeError (unavailable_msg db) in
  (forall p g s d, clients db p g s d = Err E) /\
  (forall p g s d, tclients db p g s d = Err E) /\
  (forall p g s d, zclients db p g s d = Err E) /\
  (forall p g s d, models db p g s d = Err E) /\
  (forall p g s d, tmodels db p g s d = Err E) /\
  (forall p u m g c s d, objects db p u m g c s d = Err E) /\
  (forall p m g s d, tobjects db p m g s d = Err E) /\
  (forall p m g s d, zobjects db p m g s d = Err E) /\
  (forall ids pre suf, paths db ids pre suf = Err E) /\
  (forall ps, reverse db ps = Err E) /\
  subworld_names db = Err E /\ subworlds db = Err E /\
  (forall n, has_subworld db n = Err E) /\
  (forall i, has_client_id db i = Err E) /\ (forall i, client db i = Err E) /\
  protocol_names db = Err E /\ protocols db = Err E /\
  (forall n, has_protocol db n = Err E) /\ (forall n, protocol db n = Err E) /\
  protocol_purposes db = Err E /\
  occurs_in ("'" ++ sqlite_file db ++ "'") (unavailable_msg db) /\
  occurs_in "Create it and then try re-connecting using Database.connect()"
    (unavailable_msg db).
Proof.
  intros Hs E.
  assert (Ha : assert_validity db = Err E)
    by (unfold assert_validity, is_valid; rewrite Hs; reflexivity).
  assert (Hpn : protocol_names db = Err E)
    by (unfold protocol_names; rewrite Ha; reflexivity).
  destruct (unavailable_msg_names db) as [Hm1 Hm2].
  repeat match goal with |- _ /\ _ => split end; intros;
    unfold models, tclients, zclients, zobjects, clients, tmodels, objects,
      tobjects, paths, reverse, subworld_names, subworlds, has_subworld,
      has_client_id, client, protocol_names, protocols, has_protocol,
      protocol, protocol_purposes;
    rewrite ?Ha, ?Hpn; try reflexivity; assumption.
Qed.

Lemma unavailable_store_fails_first_witness :
  objects missing_db ANone ANone MNone ANone ANone ANone ANone
  = Err (RuntimeError (unavailable_msg missing_db)) /\
  reverse missing_db [] = Err (RuntimeError (unavailable_msg missing_db)).
Proof.
  destruct (unavailable_store_fails_first missing_db eq_refl) as
    [_ [_ [_ [_ [_ [Ho [_ [_ [_ [Hr _]]]]]]]]]].
  split; [apply Ho | apply Hr].
Defined.

(** * Further properties of the query layer *)

(** ** Ordering *)

Lemma insert_by_hdrel {A} (le : A -> A -> bool) a x l :
  HdRel (fun u v => le u v = true) a l -> le a x = true ->
  HdRel (fun u v => le u v = true) a (insert_by le x l).
Proof.
  intros Hh Hax. destruct l as [|b r]; simpl; [constructor; exact Hax|].
  destruct (le x b); constructor; [exact Hax|]. inversion Hh; assumption.
Qed.

Lemma insert_by_sorted {A} (le : A -> A -> bool)
  (Htot : forall a b, le a b = false -> le b a = true) x l :
  Sorted (fun u v => le u v = true) l ->
  Sorted (fun u v => le u v = true) (insert_by le x l).
Proof.
  induction l as [|a r IH]; simpl; intros Hs.
  - constructor; constructor.
  - destruct (le x a) eqn:E.
    + constructor; [exact Hs | constructor; exact E].
    + inversion Hs as [|? ? Hr Hh]; subst. constructor; [apply IH; exact Hr|].
      apply insert_by_hdrel; [exact Hh | apply Htot; exact E].
Qed.

Lemma sort_by_sorted {A} (le : A -> A -> bool)
  (Htot : forall a b, le a b = false -> le b a = true) l :
  Sorted (fun u v => le u v = true) (sort_by le l).
Proof.
  induction l as [|x r IH]; simpl; [constructor|].
  apply insert_by_sorted; assumption.
Qed.

Lemma nat_leb_total a b : Nat.leb a b = false -> Nat.leb b a = true.
Proof. intros H. apply Nat.leb_gt in H. apply Nat.leb_le. lia. Qed.

Lemma str_le_total a b : str_le a b = false -> str_le b a = true.
Proof.
  unfold str_le. rewrite (String.compare_antisym a b).
  destruct (String.compare b a); simpl; congruence.
Qed.

Lemma nat_ltb_total a b : a <> b -> Nat.ltb a b = false -> Nat.ltb b a = true.
Proof. intros Hne H. apply Nat.ltb_ge in H. apply Nat.ltb_lt. lia. Qed.

Lemma file_le_total a b : file_le a b = false -> file_le b a = true.
Proof.
  unfold file_le.
  rewrite (Nat.eqb_sym (f_client_id b)), (Nat.eqb_sym (f_session_id b)),
    (String.eqb_sym (f_speech_type b)), (Nat.eqb_sym (f_shot_id b)).
  destruct (Nat.eqb (f_client_id a) (f_client_id b)) eqn:E1; simpl;
    [|apply nat_ltb_total; apply Nat.eqb_neq; exact E1].
  destruct (Nat.eqb (f_session_id a) (f_session_id b)) eqn:E2; simpl;
    [|apply nat_ltb_total; apply Nat.eqb_neq; exact E2].
  destruct (String.eqb (f_speech_type a) (f_speech_type b)) eqn:E3; simpl;
    [|apply str_le_total].
  destruct (Nat.eqb (f_shot_id a) (f_shot_id b)) eqn:E4; simpl;
    [apply str_le_total
    |apply nat_ltb_total; apply Nat.eqb_neq; exact E4].
Qed.

(** ** Validated selectors *)

Lemma opt_in_validated a obj valid v x :
  check_validity a obj valid (AStr EmptyString) = Ok v ->
  (opt_in v x = true <-> selects a x).
Proof.
  unfold check_validity, opt_in. intros H.
  destruct a as [|s|l]; simpl in H |- *.
  - injection H as <-. simpl. tauto.
  - destruct (String.eqb s EmptyString) eqn:E; simpl in H.
    + injection H as <-. apply String.eqb_eq in E. simpl. tauto.
    + apply bind_ok in H. destruct H as [_ [_ H]]. injection H as <-.
      simpl. rewrite orb_false_r.
      rewrite String.eqb_eq, String.eqb_neq in *. intuition.
  - destruct l as [|y r]; simpl in H.
    + injection H as <-. simpl. tauto.
    + apply bind_ok in H. destruct H as [_ [_ H]]. injection H as <-.
      simpl truthy. cbv iota. rewrite str_in_true. intuition discriminate.
Qed.

Lemma opt_subworld_validated a obj valid v xs :
  check_validity a obj valid (AStr EmptyString) = Ok v ->
  (opt_subworld v xs = true <-> selects_any a xs).
Proof.
  unfold check_validity, opt_subworld. intros H.
  destruct a as [|s|l]; simpl in H |- *.
  - injection H as <-. simpl. tauto.
  - destruct (String.eqb s EmptyString) eqn:E; simpl in H.
    + injection H as <-. apply String.eqb_eq in E. simpl. tauto.
    + apply bind_ok in H. destruct H as [_ [_ H]]. injection H as <-.
      simpl. rewrite existsb_exists. apply String.eqb_neq in E. split.
      * intros [x [Hx Hin]]. rewrite orb_false_r in Hin.
        apply String.eqb_eq in Hin. subst x. auto.
      * intros [Hs|Hin]; [contradiction|]. exists s. split; [exact Hin|].
        rewrite String.eqb_refl. reflexivity.
  - destruct l as [|y r]; simpl in H.
    + injection H as <-. simpl. tauto.
    + apply bind_ok in H. destruct H as [_ [_ H]]. injection H as <-.
      simpl truthy. cbv iota. rewrite existsb_exists. split.
      * intros [x [Hx Hin]]. apply str_in_true in Hin. right. eauto.
      * intros [Hn|[x [Hx Hin]]]; [discriminate|]. exists x.
        split; [exact Hx | apply str_in_true; exact Hin].
Qed.

(** ** [clients] and [tmodels] *)

(** [clients] on a connected store returns exactly the client rows that
    every supplied selector lets through (protocol and gender on the
    client's gender, groups on its group, subworld through its subworld
    relationship; an absent or empty selector filters nothing), ordered by
    client id. *)
Theorem clients_select_sorted (db : Database) (st : store) (protocol groups subworld gender : arg)
  (cs : list Client) :
  session db = Some st ->
  clients db protocol groups subworld gender = Ok cs ->
  Sorted (fun a b => Nat.leb (c_id a) (c_id b) = true) cs /\
  (forall c, In c cs <->
     In c (client_rows st) /\ selects protocol (c_gender c) /\
     selects groups (c_sgroup c) /\ selects_any subworld (c_subworlds c) /\
     selects gender (c_gender c)).
Proof.
  intros Hs H. unfold clients in H. inv_binds.
  unfold sess in Hv6. rewrite Hs in Hv6. injection Hv6 as <-.
  injection H as <-. split.
  - apply sort_by_sorted. intros a b. apply nat_leb_total.
  - intros c. rewrite In_sort_by, filter_In, !andb_true_iff.
    rewrite (opt_in_validated _ _ _ _ _ Hv2), (opt_in_validated _ _ _ _ _ Hv3),
      (opt_subworld_validated _ _ _ _ _ Hv4), (opt_in_validated _ _ _ _ _ Hv5).
    tauto.
Qed.

Lemma clients_select_sorted_witness :
  exists cs, clients sample_db (AStr "male") ANone (ASeq ["onethird"]) ANone = Ok cs /\
             Sorted (fun a b => Nat.leb (c_id a) (c_id b) = true) cs.
Proof.
  exists (ok_or_nil (clients sample_db (AStr "male") ANone (ASeq ["onethird"]) ANone)).
  split; [vm_compute; reflexivity|].
  apply (clients_select_sorted sample_db sample_store (AStr "male") ANone (ASeq ["onethird"]) ANone);
    [reflexivity | vm_compute; reflexivity].
Defined.

(** [tmodels] on a connected store returns exactly the T-norm model rows
    whose client exists and is let through by the subworld selector (through
    the client's subworlds) and the gender selector, in the lexicographic
    order of the string model ids. *)
Theorem tmodels_select_sorted (db : Database) (st : store) (protocol groups subworld gender : arg)
  (ts : list TModel) :
  session db = Some st ->
  tmodels db protocol groups subworld gender = Ok ts ->
  Sorted (fun a b => str_le (t_id a) (t_id b) = true) ts /\
  (forall t, In t ts <->
     In t (tmodel_rows st) /\
     exists c, tmodel_client st t = Some c /\
               selects_any subworld (c_subworlds c) /\ selects gender (c_gender c)).
Proof.
  intros Hs H. unfold tmodels in H. inv_binds.
  unfold sess in Hv6. rewrite Hs in Hv6. injection Hv6 as <-.
  injection H as <-. split.
  - apply sort_by_sorted. intros a b. apply str_le_total.
  - intros t. rewrite In_sort_by, filter_In.
    destruct (tmodel_client st t) as [c|]; split.
    + intros [Ht Hp]. apply andb_true_iff in Hp. destruct Hp as [H1 H2].
      rewrite (opt_subworld_validated _ _ _ _ _ Hv4) in H1.
      rewrite (opt_in_validated _ _ _ _ _ Hv5) in H2. eauto.
    + intros [Ht [c' [E [H1 H2]]]]. injection E as <-. split; [exact Ht|].
      apply andb_true_iff. rewrite (opt_subworld_validated _ _ _ _ _ Hv4),
        (opt_in_validated _ _ _ _ _ Hv5). auto.
    + intros [_ Hp]. discriminate.
    + intros [_ [c' [E _]]]. discriminate.
Qed.

Lemma tmodels_select_sorted_witness :
  exists ts, tmodels sample_db ANone ANone (AStr "onethird") (AStr "male") = Ok ts /\
             Sorted (fun a b => str_le (t_id a) (t_id b) = true) ts.
Proof.
  exists (ok_or_nil (tmodels sample_db ANone ANone (AStr "onethird") (AStr "male"))).
  split; [vm_compute; reflexivity|].
  apply (tmodels_select_sorted sample_db sample_store ANone ANone (AStr "onethird") (AStr "male"));
    [reflexivity | vm_compute; reflexivity].
Defined.

(** ** Re-validation and the T-norm/Z-norm client selectors *)

(** Validating an already validated selector (default [''], as [clients]
    does with the values [tclients] hands it) returns it unchanged. *)
Theorem check_validity_idempotent (a : arg) (obj : string) (valid : pyseq) (v : arg) :
  check_validity a obj valid (AStr EmptyString) = Ok v ->
  check_validity v obj valid (AStr EmptyString) = Ok v.
Proof.
  unfold check_validity. intros H.
  destruct a as [|s|l].
  - cbn [truthy negb] in H. injection H as <-. reflexivity.
  - cbn [truthy] in H. destruct (String.eqb s EmptyString) eqn:E; cbn [negb] in H.
    + injection H as <-. reflexivity.
    + apply bind_ok in H. destruct H as [u [Ec H]]. injection H as <-.
      cbn [truthy negb]. rewrite Ec. reflexivity.
  - destruct l as [|y r]; cbn [truthy negb] in H.
    + injection H as <-. reflexivity.
    + apply bind_ok in H. destruct H as [u [Ec H]]. injection H as <-.
      cbn [truthy negb]. rewrite Ec. reflexivity.
Qed.

Lemma check_validity_idempotent_witness :
  check_validity (AStr "male") "gender" gender_choices (AStr EmptyString) = Ok (ASeq ["male"]) /\
  check_validity (ASeq ["male"]) "gender" gender_choices (AStr EmptyString) = Ok (ASeq ["male"]).
Proof.
  split; [reflexivity|].
  apply (check_validity_idempotent (AStr "male")). reflexivity.
Defined.

Lemma protocol_names_assert (db : Database) vp :
  protocol_names db = Ok vp -> assert_validity db = Ok tt.
Proof.
  unfold protocol_names. destruct (assert_validity db) as [[]|e]; simpl; congruence.
Qed.

(** Whenever [tclients] returns, [zclients] with the same arguments returns
    the same clients: [tclients] validates protocol, subworld and gender
    before handing them to [clients], which validates them again with no
    effect. *)
Theorem tclients_zclients_agree (db : Database) (protocol groups subworld gender : arg)
  (cs : list Client) :
  tclients db protocol groups subworld gender = Ok cs ->
  zclients db protocol groups subworld gender = Ok cs.
Proof.
  intros H. unfold tclients in H. inv_binds.
  assert (Ha := protocol_names_assert db v Hv).
  unfold zclients. rewrite Ha. cbn [bind]. rewrite Hv2. cbn [bind].
  unfold clients in H |- *. rewrite Ha, Hv, Hv0 in *. cbn [bind] in H |- *.
  rewrite (check_validity_idempotent _ _ _ _ Hv1) in H.
  rewrite (check_validity_idempotent _ _ _ _ Hv3) in H.
  rewrite (check_validity_idempotent _ _ _ _ Hv4) in H.
  rewrite Hv1, Hv3, Hv4. exact H.
Qed.

Lemma tclients_zclients_agree_witness :
  zclients sample_db ANone (AStr "eval") (AStr "onethird") ANone
  = Ok (ok_or_nil (tclients sample_db ANone (AStr "eval") (AStr "onethird") ANone)).
Proof.
  apply tclients_zclients_agree. vm_compute. reflexivity.
Defined.

(** On a connected store, the clients [tclients] or [zclients] return are
    exactly the world-group client rows let through by the protocol,
    subworld and gender selectors. *)
Theorem tz_clients_members (db : Database) (st : store) (protocol groups subworld gender : arg)
  (cs : list Client) :
  session db = Some st ->
  (tclients db protocol groups subworld gender = Ok cs \/
   zclients db protocol groups subworld gender = Ok cs) ->
  forall c, In c cs <->
    In c (client_rows st) /\ c_sgroup c = "world" /\ selects protocol (c_gender c) /\
    selects_any subworld (c_subworlds c) /\ selects gender (c_gender c).
Proof.
  intros Hs Hor. assert (Hz : zclients db protocol groups subworld gender = Ok cs)
    by (destruct Hor as [Ht|Hz]; [apply tclients_zclients_agree; exact Ht | exact Hz]).
  unfold zclients in Hz. inv_binds.
  destruct (clients_select_sorted db st protocol (AStr "world") subworld gender cs Hs Hz)
    as [_ Hm].
  intros c. rewrite Hm. simpl.
  split; intros; intuition (try discriminate; subst; auto).
Qed.

Lemma tz_clients_members_witness :
  exists cs, tclients sample_db ANone ANone (AStr "onethird") ANone = Ok cs /\
    (In (mkClient 3 "male" "world" ["onethird"]) cs <->
     In (mkClient 3 "male" "world" ["onethird"]) (client_rows sample_store) /\ c_sgroup (mkClient 3 "male" "world" ["onethird"]) = "world" /\
     selects ANone (c_gender (mkClient 3 "male" "world" ["onethird"])) /\
     selects_any (AStr "onethird") (c_subworlds (mkClient 3 "male" "world" ["onethird"])) /\ selects ANone (c_gender (mkClient 3 "male" "world" ["onethird"]))).
Proof.
  exists (ok_or_nil (tclients sample_db ANone ANone (AStr "onethird") ANone)).
  split; [vm_compute; reflexivity|].
  apply (tz_clients_members sample_db sample_store ANone ANone (AStr "onethird") ANone).
  - reflexivity.
  - left. vm_compute. reflexivity.
Defined.

(** ** [objects] and [zobjects] *)

Lemma opt_ids_true ids v : opt_ids ids v = true <-> ids = [] \/ In v ids.
Proof.
  unfold opt_ids. destruct ids as [|x r].
  - intuition.
  - rewrite nat_in_true. intuition discriminate.
Qed.

Lemma file_client_some st f c :
  file_client st f = Some c -> c_id c = f_client_id f /\ In c (client_rows st).
Proof.
  unfold file_client. intros H. apply find_some in H. destruct H as [Hin E].
  apply Nat.eqb_eq in E. auto.
Qed.

Lemma In_dedup_files_iff st l f :
  NoDup (map f_id (file_rows st)) -> incl l (file_rows st) ->
  (In f (dedup_files l) <-> In f l).
Proof.
  intros Hnd Hincl. split; [apply In_dedup_files|].
  apply (In_dedup_files_unique st); assumption.
Qed.


Lemma check_validity_none obj valid d : check_validity ANone obj valid d = Ok d.
Proof. reflexivity. Qed.

Lemma objects_world_iff db st protocol purposes model_ids classes subworld gender r :
  session db = Some st -> NoDup (map f_id (file_rows st)) ->
  objects db protocol purposes model_ids (AStr "world") classes subworld gender = Ok r ->
  forall f, In f r <->
    In f (file_rows st) /\
    exists c, file_client st f = Some c /\ c_sgroup c = "world" /\
              selects_any subworld (f_subworlds f) /\ selects gender (c_gender c) /\
              (norm_model_ids model_ids = [] \/ In (f_client_id f) (norm_model_ids model_ids)).
Proof.
  intros Hs Hnd H. unfold objects in H. inv_binds.
  vm_compute in Hv4. injection Hv4 as <-.
  unfold sess in Hv8. rewrite Hs in Hv8. injection Hv8 as <-.
  injection H as <-. cbn [members].
  change (str_in "world" ["world"]) with true.
  change (str_in "dev" ["world"] || str_in "eval" ["world"]) with false.
  cbn [when andb]. rewrite !app_nil_r. intros f.
  rewrite (In_dedup_files_iff st _ f Hnd) by apply file_query_incl.
  unfold world_branch. rewrite In_file_query.
  split; intros [Hf [c [Ec Hp]]]; split; try exact Hf; exists c; split; try exact Ec.
  - rewrite !andb_true_iff in Hp. destruct Hp as [[[H1 H2] H3] H4].
    apply String.eqb_eq in H1.
    rewrite (opt_subworld_validated _ _ _ _ _ Hv6) in H2.
    rewrite (opt_in_validated _ _ _ _ _ Hv7) in H3.
    rewrite opt_ids_true in H4. auto.
  - destruct Hp as [H1 [H2 [H3 H4]]]. rewrite !andb_true_iff.
    rewrite String.eqb_eq, (opt_subworld_validated _ _ _ _ _ Hv6),
      (opt_in_validated _ _ _ _ _ Hv7), opt_ids_true. auto.
Qed.

(** On a connected store (file ids are primary keys), [objects] with the
    group 'world' and [zobjects] return exactly the files of world-group
    clients let through by the subworld selector (through the file's own
    subworlds) and the gender selector, restricted to the files of the given
    model ids when there are any; purposes and classes play no part. *)
Theorem objects_world_members (db : Database) (st : store) (protocol purposes : arg)
  (model_ids : model_arg) (classes groups subworld gender : arg) (r : list File) :
  session db = Some st -> NoDup (map f_id (file_rows st)) ->
  (objects db protocol purposes model_ids (AStr "world") classes subworld gender = Ok r \/
   zobjects db protocol model_ids groups subworld gender = Ok r) ->
  forall f, In f r <->
    In f (file_rows st) /\
    exists c, file_client st f = Some c /\ c_sgroup c = "world" /\
              selects_any subworld (f_subworlds f) /\ selects gender (c_gender c) /\
              (norm_model_ids model_ids = [] \/ In (f_client_id f) (norm_model_ids model_ids)).
Proof.
  intros Hs Hnd [H|H].
  - eapply objects_world_iff; eassumption.
  - unfold zobjects in H. inv_binds. eapply objects_world_iff; eassumption.
Qed.

Lemma objects_world_members_witness :
  exists r, zobjects sample_db ANone (MSeq [3; 4]) ANone (AStr "onethird") ANone = Ok r /\
    (In (mkFile 8 3 1 "p" 1 "mobile" "m003/s01/world" ["onethird"] [] ["100"]) r <->
     In (mkFile 8 3 1 "p" 1 "mobile" "m003/s01/world" ["onethird"] [] ["100"]) (file_rows sample_store) /\
     exists c, file_client sample_store (mkFile 8 3 1 "p" 1 "mobile" "m003/s01/world" ["onethird"] [] ["100"]) = Some c /\ c_sgroup c = "world" /\
               selects_any (AStr "onethird") (f_subworlds (mkFile 8 3 1 "p" 1 "mobile" "m003/s01/world" ["onethird"] [] ["100"])) /\ selects ANone (c_gender c) /\
               (norm_model_ids (MSeq [3; 4]) = [] \/
                In (f_client_id (mkFile 8 3 1 "p" 1 "mobile" "m003/s01/world" ["onethird"] [] ["100"])) (norm_model_ids (MSeq [3; 4])))).
Proof.
  exists (ok_or_nil (zobjects sample_db ANone (MSeq [3; 4]) ANone (AStr "onethird") ANone)).
  split; [vm_compute; reflexivity|].
  apply (objects_world_members sample_db sample_store ANone ANone (MSeq [3; 4]) ANone ANone
           (AStr "onethird") ANone).
  - reflexivity.
  - vm_compute. repeat constructor; simpl; intuition discriminate.
  - right. vm_compute. reflexivity.
Defined.

Lemma pp_branch_members st protocol groups purpose gender ids f :
  ids <> [] ->
  In f (file_query st (fun f c => pp_match st protocol groups purpose f
                                  && opt_in gender (c_gender c)
                                  && opt_ids ids (c_id c))) ->
  In f (file_rows st) /\ In (f_client_id f) ids /\
  exists pp, In pp (protocol_purpose_rows st) /\ In (pp_id pp) (f_protocol_purposes f) /\
             In (pp_sgroup pp) (members groups) /\ pp_purpose pp = purpose.
Proof.
  intros Hne Hf. rewrite In_file_query in Hf. destruct Hf as [Hin [c [Ec Hp]]].
  rewrite !andb_true_iff in Hp. destruct Hp as [[Hpp _] Hid].
  apply file_client_some in Ec as [Eid _].
  apply opt_ids_true in Hid as [Hid|Hid]; [contradiction|]. rewrite Eid in Hid.
  apply pp_match_true in Hpp as [pp [H1 [H2 [_ [H4 H5]]]]].
  split; [exact Hin|]. split; [exact Hid|]. exists pp. auto.
Qed.

(** With a non-empty list of dev/eval groups, the class 'client' and at
    least one model id, [objects] returns only files of the given model ids
    (the client ids), each attached to a protocol purpose of one of the
    groups whose purpose is enrol or probe. *)
Theorem objects_client_class_model_ids (db : Database) (st : store) (protocol purposes : arg)
  (model_ids : model_arg) (gs : list string) (subworld gender : arg) (r : list File) :
  session db = Some st -> dev_or_eval gs -> norm_model_ids model_ids <> [] ->
  objects db protocol purposes model_ids (ASeq gs) (ASeq ["client"]) subworld gender = Ok r ->
  forall f, In f r ->
    In f (file_rows st) /\ In (f_client_id f) (norm_model_ids model_ids) /\
    exists pp, In pp (protocol_purpose_rows st) /\ In (pp_id pp) (f_protocol_purposes f) /\
               In (pp_sgroup pp) gs /\ (pp_purpose pp = "enrol" \/ pp_purpose pp = "probe").
Proof.
  intros Hs Hgs Hne H. unfold objects in H. inv_binds. injection H as <-.
  assert (Hgs' := Hgs). destruct Hgs' as [Hgne _].
  apply (check_validity_seq _ _ _ _ _ Hgne) in Hv4. subst v4.
  apply check_validity_seq in Hv5; [subst v5 | discriminate].
  unfold sess in Hv8. rewrite Hs in Hv8. injection Hv8 as <-.
  intros f Hf. apply In_dedup_files in Hf. cbn [members] in Hf.
  rewrite (dev_or_eval_not_world gs Hgs) in Hf.
  change (str_in "impostor" ["client"]) with false in Hf.
  rewrite !andb_false_r in Hf.
  rewrite !in_app_iff, !In_when in Hf.
  destruct Hf as [[Hc _]|[[_ Hf]|[[_ Hf]|[Hc _]]]]; try discriminate.
  - apply pp_branch_members in Hf as [H1 [H2 [pp [H3 [H4 [H5 H6]]]]]]; [|exact Hne].
    split; [exact H1|]. split; [exact H2|]. exists pp. auto.
  - apply pp_branch_members in Hf as [H1 [H2 [pp [H3 [H4 [H5 H6]]]]]]; [|exact Hne].
    split; [exact H1|]. split; [exact H2|]. exists pp. auto.
Qed.

Lemma objects_client_class_model_ids_witness :
  exists r, objects sample_db ANone ANone (MSeq [1]) (ASeq ["dev"]) (ASeq ["client"]) ANone ANone
            = Ok r /\
    (In (mkFile 6 1 2 "r" 1 "mobile" "m001/s02/probe" [] [2] []) r ->
     In (mkFile 6 1 2 "r" 1 "mobile" "m001/s02/probe" [] [2] []) (file_rows sample_store) /\ In (f_client_id (mkFile 6 1 2 "r" 1 "mobile" "m001/s02/probe" [] [2] [])) (norm_model_ids (MSeq [1])) /\
     exists pp, In pp (protocol_purpose_rows sample_store) /\
                In (pp_id pp) (f_protocol_purposes (mkFile 6 1 2 "r" 1 "mobile" "m001/s02/probe" [] [2] [])) /\
                In (pp_sgroup pp) ["dev"] /\ (pp_purpose pp = "enrol" \/ pp_purpose pp = "probe")).
Proof.
  exists (ok_or_nil (objects sample_db ANone ANone (MSeq [1]) (ASeq ["dev"]) (ASeq ["client"])
                       ANone ANone)).
  split; [vm_compute; reflexivity|].
  apply (objects_client_class_model_ids sample_db sample_store ANone ANone (MSeq [1]) ["dev"]
           ANone ANone).
  - reflexivity.
  - split; [discriminate|]. intros g [<-|[]]. left. reflexivity.
  - discriminate.
  - vm_compute. reflexivity.
Defined.

Lemma check_validity_seq_err xs obj valid default e :
  check_elems xs obj valid = Err e -> check_validity (ASeq xs) obj valid default = Err e.
Proof.
  intros H. destruct xs as [|x r]; [discriminate|].
  unfold check_validity. simpl negb. cbv iota beta. rewrite H. reflexivity.
Qed.

Lemma protocol_names_ok db st : session db = Some st -> protocol_names db = Ok (protocol_rows st).
Proof. intros Hs. unfold protocol_names, protocols, assert_validity, is_valid, sess. rewrite Hs. reflexivity. Qed.

Lemma subworld_names_ok db st : session db = Some st -> subworld_names db = Ok (subworld_rows st).
Proof. intros Hs. unfold subworld_names, subworlds, assert_validity, is_valid, sess. rewrite Hs. reflexivity. Qed.

Lemma check_elems_first pre k post obj valid :
  (forall x, In x pre -> In x (ps_elems valid)) -> ~ In k (ps_elems valid) ->
  check_elems (pre ++ k :: post) obj valid = Err (RuntimeError (invalid_msg obj k valid)).
Proof.
  intros Hpre Hk. induction pre as [|x pre IH]; simpl.
  - destruct (str_in k (ps_elems valid)) eqn:E; [|reflexivity].
    apply str_in_true in E. contradiction.
  - assert (str_in x (ps_elems valid) = true) as ->
      by (apply str_in_true, Hpre; left; reflexivity).
    apply IH. intros y Hy. apply Hpre. right. exact Hy.
Qed.

(** On a connected store, [objects] given a sequence of groups whose first
    value outside (dev, eval, world) is [k] raises the [RuntimeError] of
    [__check_validity__] naming [k] (not a later invalid value), whatever
    the model ids, classes, subworld and gender. *)
Theorem objects_invalid_group (db : Database) (st : store) (model_ids : model_arg)
  (pre : list string) (k : string) (post : list string) (classes subworld gender : arg) :
  session db = Some st ->
  (forall x, In x pre -> In x (ps_elems group_choices)) ->
  ~ In k (ps_elems group_choices) ->
  objects db ANone ANone model_ids (ASeq (pre ++ k :: post)) classes subworld gender
  = Err (RuntimeError (invalid_msg "group" k group_choices)).
Proof.
  intros Hs Hpre Hk.
  assert (Ha : assert_validity db = Ok tt)
    by (unfold assert_validity, is_valid; rewrite Hs; reflexivity).
  unfold objects. rewrite Ha, (protocol_names_ok db st Hs), (subworld_names_ok db st Hs).
  cbn [bind]. rewrite !check_validity_none. cbn [bind].
  rewrite (check_validity_seq_err _ _ _ _ _ (check_elems_first pre k post "group" _ Hpre Hk)).
  reflexivity.
Qed.

Lemma objects_invalid_group_witness :
  objects sample_db ANone ANone MNone (ASeq ["dev"; "test"; "train"]) ANone ANone ANone
  = Err (RuntimeError (invalid_msg "group" "test" group_choices)).
Proof.
  apply (objects_invalid_group sample_db sample_store MNone ["dev"] "test" ["train"]
           ANone ANone ANone).
  - reflexivity.
  - intros x [<-|[]]. simpl. auto.
  - simpl. intuition discriminate.
Defined.

(** ** [tobjects] *)

Lemma truthy_validated a obj valid v :
  check_validity a obj valid (AStr EmptyString) = Ok v -> truthy v = truthy a.
Proof.
  unfold check_validity. intros H.
  destruct (truthy a) eqn:Ea; cbn [negb] in H.
  - destruct a as [|s|l]; [discriminate| |].
    + apply bind_ok in H. destruct H as [_ [_ H]]. injection H as <-. reflexivity.
    + apply bind_ok in H. destruct H as [_ [_ H]]. injection H as <-. exact Ea.
  - injection H as <-. reflexivity.
Qed.

Lemma opt_tids_true ids v : opt_tids ids v = true <-> ids = [] \/ In v ids.
Proof.
  unfold opt_tids. destruct ids as [|x r].
  - intuition.
  - rewrite str_in_true. intuition discriminate.
Qed.

(** [tobjects] on a connected store returns, ordered by client, session,
    speech type, shot and device, exactly the files let through by the
    subworld selector (through the file's subworlds) that are linked to a
    T-norm model row which is one of the given model ids when there are any
    (a single string id counting as one) and, only when a gender is given,
    whose client exists and has that gender: the gender is the one of the
    linked T-norm model's client.  The protocol and groups are validated but
    select nothing. *)
Theorem tobjects_select_sorted (db : Database) (st : store) (protocol : arg)
  (model_ids : tmodel_arg) (groups subworld gender : arg) (r : list File) :
  session db = Some st ->
  tobjects db protocol model_ids groups subworld gender = Ok r ->
  Sorted (fun a b => file_le a b = true) r /\
  (forall f, In f r <->
     In f (file_rows st) /\ selects_any subworld (f_subworlds f) /\
     exists t, In t (tmodel_rows st) /\ In (t_id t) (f_tmodels f) /\
               (norm_tmodel_ids model_ids = [] \/ In (t_id t) (norm_tmodel_ids model_ids)) /\
               (truthy gender = true ->
                exists c, tmodel_client st t = Some c /\ selects gender (c_gender c))).
Proof.
  intros Hs H. unfold tobjects in H. inv_binds.
  unfold sess in Hv6. rewrite Hs in Hv6. injection Hv6 as <-.
  injection H as <-. split.
  - apply sort_by_sorted. apply file_le_total.
  - intros f. unfold sort_files. rewrite In_sort_by, filter_In. cbv beta.
    rewrite andb_true_iff, (opt_subworld_validated _ _ _ _ _ Hv4), existsb_exists,
      (truthy_validated _ _ _ _ Hv5).
    assert (Ht : forall t,
      (str_in (t_id t) (f_tmodels f) && opt_tids (norm_tmodel_ids model_ids) (t_id t)
       && (if truthy gender
           then match tmodel_client st t with
                | Some c => opt_in v5 (c_gender c)
                | None => false
                end
           else true)) = true <->
      In (t_id t) (f_tmodels f) /\
      (norm_tmodel_ids model_ids = [] \/ In (t_id t) (norm_tmodel_ids model_ids)) /\
      (truthy gender = true ->
       exists c, tmodel_client st t = Some c /\ selects gender (c_gender c))).
    { intros t. rewrite !andb_true_iff, str_in_true, opt_tids_true.
      assert (Hg : (if truthy gender
                    then match tmodel_client st t with
                         | Some c => opt_in v5 (c_gender c)
                         | None => false
                         end
                    else true) = true <->
                   (truthy gender = true ->
                    exists c, tmodel_client st t = Some c /\ selects gender (c_gender c))).
      { destruct (truthy gender); [|intuition discriminate].
        destruct (tmodel_client st t) as [c|]; split.
        - intros Hc _. exists c. split; [reflexivity|].
          apply (opt_in_validated _ _ _ _ _ Hv5). exact Hc.
        - intros Hc. destruct (Hc eq_refl) as [c' [E Hc']]. injection E as <-.
          apply (opt_in_validated _ _ _ _ _ Hv5). exact Hc'.
        - discriminate.
        - intros Hc. destruct (Hc eq_refl) as [c' [E _]]. discriminate. }
      rewrite Hg. tauto. }
    split.
    + intros [Hf [H1 [t [Hin Hl]]]]. apply Ht in Hl.
      split; [exact Hf|]. split; [exact H1|]. exists t. tauto.
    + intros [Hf [H1 [t [Hin Hl]]]].
      split; [exact Hf|]. split; [exact H1|].
      exists t. split; [exact Hin | apply Ht; exact Hl].
Qed.

Lemma tobjects_select_sorted_witness :
  exists r, tobjects sample_db ANone (TStr "100") ANone (AStr "onethird") (AStr "male") = Ok r /\
    Sorted (fun a b => file_le a b = true) r /\
    (In (mkFile 8 3 1 "p" 1 "mobile" "m003/s01/world" ["onethird"] [] ["100"]) r <->
     In (mkFile 8 3 1 "p" 1 "mobile" "m003/s01/world" ["onethird"] [] ["100"]) (file_rows sample_store) /\
     selects_any (AStr "onethird") (f_subworlds (mkFile 8 3 1 "p" 1 "mobile" "m003/s01/world" ["onethird"] [] ["100"])) /\
     exists t, In t (tmodel_rows sample_store) /\ In (t_id t) (f_tmodels (mkFile 8 3 1 "p" 1 "mobile" "m003/s01/world" ["onethird"] [] ["100"])) /\
               (norm_tmodel_ids (TStr "100") = [] \/ In (t_id t) (norm_tmodel_ids (TStr "100"))) /\
               (truthy (AStr "male") = true ->
                exists c, tmodel_client sample_store t = Some c /\
                          selects (AStr "male") (c_gender c))).
Proof.
  exists (ok_or_nil (tobjects sample_db ANone (TStr "100") ANone (AStr "onethird") (AStr "male"))).
  split; [vm_compute; reflexivity|].
  destruct (tobjects_select_sorted sample_db sample_store ANone (TStr "100") ANone
              (AStr "onethird") (AStr "male")
              (ok_or_nil (tobjects sample_db ANone (TStr "100") ANone (AStr "onethird")
                            (AStr "male")))) as [H1 H2].
  - reflexivity.
  - vm_compute. reflexivity.
  - split; [exact H1 | apply H2].
Defined.

(** ** Lookups by key *)

Lemma filter_key_at_most_one {A B} (key : A -> B) (p : A -> bool) (k : B) (l : list A) :
  (forall x, p x = true <-> key x = k) -> NoDup (map key l) ->
  filter p l = [] \/ exists y, filter p l = [y].
Proof.
  intros Hp. induction l as [|a l IH]; simpl; intros Hnd; [auto|].
  inversion Hnd as [|? ? Hna Hnd']; subst.
  destruct (p a) eqn:Ea.
  - right. exists a. f_equal.
    destruct (filter p l) as [|z r] eqn:E; [reflexivity|].
    exfalso. assert (Hz : In z (filter p l)) by (rewrite E; left; reflexivity).
    apply filter_In in Hz as [Hz Ez]. apply Hp in Ez, Ea.
    apply Hna. rewrite Ea, <- Ez. apply in_map. exact Hz.
  - apply IH. exact Hnd'.
Qed.

Lemma one_filter_key {A B} (key : A -> B) (p : A -> bool) (k : B) (l : list A) :
  (forall x, p x = true <-> key x = k) -> NoDup (map key l) ->
  (forall x, one (filter p l) = Ok x <-> In x l /\ key x = k) /\
  (one (filter p l) = Err NoResultFound <-> ~ exists x, In x l /\ key x = k) /\
  (negb (Nat.eqb (length (filter p l)) 0) = true <-> exists x, In x l /\ key x = k).
Proof.
  intros Hp Hnd.
  assert (Hin : forall x, In x (filter p l) <-> In x l /\ key x = k)
    by (intros x; rewrite filter_In, Hp; tauto).
  destruct (filter_key_at_most_one key p k l Hp Hnd) as [E|[y E]];
    rewrite E in Hin |- *; simpl.
  - split; [|split].
    + intros x. split; [discriminate|]. intros Hx. apply Hin in Hx. destruct Hx.
    + split; [|reflexivity]. intros _ [x Hx]. apply Hin in Hx. destruct Hx.
    + split; [discriminate|]. intros [x Hx]. apply Hin in Hx. destruct Hx.
  - split; [|split].
    + intros x. rewrite <- Hin. simpl. split.
      * intros Ex. injection Ex as <-. auto.
      * intros [<-|[]]. reflexivity.
    + split; [discriminate|]. intros Hn. exfalso. apply Hn. exists y. apply Hin. left. reflexivity.
    + split; [|reflexivity]. intros _. exists y. apply Hin. left. reflexivity.
Qed.

(** On a connected store whose client ids are unique (the primary key),
    [client] returns the one client with the given id, raises
    [NoResultFound] exactly when there is none (never
    [MultipleResultsFound]), and [has_client_id] tells whether there is one. *)
Theorem client_lookup (db : Database) (st : store) (id : nat) :
  session db = Some st -> NoDup (map c_id (client_rows st)) ->
  (forall c, client db id = Ok c <-> In c (client_rows st) /\ c_id c = id) /\
  (client db id = Err NoResultFound <-> ~ exists c, In c (client_rows st) /\ c_id c = id) /\
  client db id <> Err MultipleResultsFound /\
  (has_client_id db id = Ok true <-> exists c, In c (client_rows st) /\ c_id c = id).
Proof.
  intros Hs Hnd.
  assert (Hp : forall c, Nat.eqb (c_id c) id = true <-> c_id c = id) by (intros c; apply Nat.eqb_eq).
  destruct (one_filter_key c_id _ id _ Hp Hnd) as [H1 [H2 H3]].
  unfold client, has_client_id, assert_validity, is_valid, sess. rewrite Hs. cbn [bind].
  split; [exact H1|]. split; [exact H2|]. split.
  - destruct (filter_key_at_most_one c_id _ id _ Hp Hnd) as [E|[y E]]; rewrite E; discriminate.
  - rewrite <- H3. split; [intros E; injection E as E; exact E | intros E; rewrite E; reflexivity].
Qed.

Lemma client_lookup_witness :
  client sample_db 3 = Ok (mkClient 3 "male" "world" ["onethird"]) /\
  client sample_db 7 = Err NoResultFound.
Proof.
  destruct (client_lookup sample_db sample_store 3 eq_refl) as [H1 _];
    [vm_compute; repeat constructor; simpl; intuition discriminate|].
  destruct (client_lookup sample_db sample_store 7 eq_refl) as [_ [H2 _]];
    [vm_compute; repeat constructor; simpl; intuition discriminate|].
  split.
  - apply H1. split; [simpl; auto | reflexivity].
  - apply H2. intros [c [Hc E]]. simpl in Hc.
    repeat destruct Hc as [<-|Hc]; try discriminate; destruct Hc.
Defined.

Lemma count_nonzero {A} (p : A -> bool) (l : list A) :
  negb (Nat.eqb (length (filter p l)) 0) = true <-> exists x, In x l /\ p x = true.
Proof.
  split.
  - destruct (filter p l) as [|x r] eqn:E; [discriminate|]. intros _.
    exists x. rewrite <- filter_In, E. left. reflexivity.
  - intros [x Hx]. rewrite <- filter_In in Hx.
    destruct (filter p l); [destruct Hx | reflexivity].
Qed.

(** On a connected store whose protocol names are unique, [protocol]
    returns the protocol of the given name and raises [NoResultFound]
    exactly when there is none; [has_protocol] and [has_subworld] tell
    whether a protocol, resp. a subworld, of that name is registered. *)
Theorem name_lookups (db : Database) (st : store) (name : string) :
  session db = Some st -> NoDup (protocol_rows st) ->
  (forall p, protocol db name = Ok p <-> p = name /\ In name (protocol_rows st)) /\
  (protocol db name = Err NoResultFound <-> ~ In name (protocol_rows st)) /\
  (has_protocol db name = Ok true <-> In name (protocol_rows st)) /\
  (has_subworld db name = Ok true <-> In name (subworld_rows st)).
Proof.
  intros Hs Hnd.
  assert (Hp : forall p, String.eqb name p = true <-> p = name)
    by (intros p; rewrite String.eqb_eq; split; auto).
  rewrite <- (map_id (protocol_rows st)) in Hnd.
  destruct (one_filter_key (fun p => p) _ name _ Hp Hnd) as [H1 [H2 _]].
  unfold protocol, has_protocol, has_subworld, assert_validity, is_valid, sess.
  rewrite Hs. cbn [bind].
  split; [|split; [|split]].
  - intros p. rewrite H1. split; intros [A B]; subst; auto.
  - rewrite H2. split.
    + intros Hn Hin. apply Hn. exists name. auto.
    + intros Hn [x [Hx <-]]. contradiction.
  - transitivity (negb (Nat.eqb (length (filter (String.eqb name) (protocol_rows st))) 0) = true);
      [split; [intros E; injection E as E; exact E | intros E; rewrite E; reflexivity]|].
    rewrite count_nonzero. split; [intros [x [Hx Ex]]; apply Hp in Ex; subst; exact Hx|].
    intros Hin. exists name. split; [exact Hin | apply String.eqb_refl].
  - transitivity (negb (Nat.eqb (length (filter (String.eqb name) (subworld_rows st))) 0) = true);
      [split; [intros E; injection E as E; exact E | intros E; rewrite E; reflexivity]|].
    rewrite count_nonzero. split; [intros [x [Hx Ex]]; apply Hp in Ex; subst; exact Hx|].
    intros Hin. exists name. split; [exact Hin | apply String.eqb_refl].
Qed.

Lemma name_lookups_witness :
  protocol sample_db "female" = Ok "female" /\
  protocol sample_db "mixed" = Err NoResultFound /\
  has_subworld sample_db "twothirds" = Ok true.
Proof.
  destruct (name_lookups sample_db sample_store "female" eq_refl) as [H1 _];
    [repeat constructor; simpl; intuition discriminate|].
  destruct (name_lookups sample_db sample_store "mixed" eq_refl) as [_ [H2 _]];
    [repeat constructor; simpl; intuition discriminate|].
  destruct (name_lookups sample_db sample_store "twothirds" eq_refl) as [_ [_ [_ H3]]];
    [repeat constructor; simpl; intuition discriminate|].
  split; [|split].
  - apply H1. split; [reflexivity | simpl; auto].
  - apply H2. simpl. intuition discriminate.
  - apply H3. simpl. auto.
Defined.

(** ** Joins and group validation of the Z-norm selectors *)

(** Every file [objects] returns is a file row of the store whose client row
    exists (the [join(Client)] of every branch), whatever the arguments. *)
Theorem objects_files_joined (db : Database) (st : store) (protocol purposes : arg)
  (model_ids : model_arg) (groups classes subworld gender : arg) (r : list File) :
  session db = Some st ->
  objects db protocol purposes model_ids groups classes subworld gender = Ok r ->
  forall f, In f r -> In f (file_rows st) /\
    exists c, file_client st f = Some c /\ In c (client_rows st) /\ c_id c = f_client_id f.
Proof.
  intros Hs H. unfold objects in H. inv_binds. injection H as <-.
  unfold sess in Hv8. rewrite Hs in Hv8. injection Hv8 as <-.
  intros f Hf. apply In_dedup_files in Hf.
  assert (Hq : forall p, In f (file_query st p) ->
                 In f (file_rows st) /\
                 exists c, file_client st f = Some c /\ In c (client_rows st) /\
                           c_id c = f_client_id f).
  { intros p Hp. rewrite In_file_query in Hp. destruct Hp as [Hin [c [Ec _]]].
    split; [exact Hin|]. exists c. destruct (file_client_some _ _ _ Ec) as [E1 E2]. auto. }
  rewrite !in_app_iff, !In_when in Hf.
  destruct Hf as [[_ Hf]|[[_ Hf]|[[_ Hf]|[_ Hf]]]];
    [unfold world_branch in Hf | unfold enrol_branch in Hf
    | unfold client_branch in Hf | unfold impostor_branch in Hf];
    exact (Hq _ Hf).
Qed.

Lemma objects_files_joined_witness :
  exists r, objects sample_db ANone ANone MNone ANone ANone ANone ANone = Ok r /\
    (In (mkFile 5 1 1 "p" 1 "mobile" "m001/s01/enrol" [] [1] []) r ->
     In (mkFile 5 1 1 "p" 1 "mobile" "m001/s01/enrol" [] [1] []) (file_rows sample_store) /\
     exists c, file_client sample_store (mkFile 5 1 1 "p" 1 "mobile" "m001/s01/enrol" [] [1] []) = Some c /\ In c (client_rows sample_store) /\
               c_id c = f_client_id (mkFile 5 1 1 "p" 1 "mobile" "m001/s01/enrol" [] [1] [])).
Proof.
  exists (ok_or_nil (objects sample_db ANone ANone MNone ANone ANone ANone ANone)).
  split; [vm_compute; reflexivity|].
  apply (objects_files_joined sample_db sample_store ANone ANone MNone ANone ANone ANone ANone).
  - reflexivity.
  - vm_compute. reflexivity.
Defined.

(** [zclients] and [zobjects] validate the groups against (dev, eval) only:
    on a connected store, a sequence of groups whose first value outside
    (dev, eval) is [k] ('world' included) makes both raise the
    [RuntimeError] of [__check_validity__] naming [k], before anything else
    is looked at. *)
Theorem z_selectors_invalid_group (db : Database) (st : store)
  (pre : list string) (k : string) (post : list string) :
  session db = Some st ->
  (forall x, In x pre -> In x (ps_elems dev_eval)) -> ~ In k (ps_elems dev_eval) ->
  (forall protocol subworld gender,
     zclients db protocol (ASeq (pre ++ k :: post)) subworld gender
     = Err (RuntimeError (invalid_msg "group" k dev_eval))) /\
  (forall protocol model_ids subworld gender,
     zobjects db protocol model_ids (ASeq (pre ++ k :: post)) subworld gender
     = Err (RuntimeError (invalid_msg "group" k dev_eval))).
Proof.
  intros Hs Hpre Hk.
  assert (Ha : assert_validity db = Ok tt)
    by (unfold assert_validity, is_valid; rewrite Hs; reflexivity).
  pose proof (check_elems_first pre k post "group" _ Hpre Hk) as Hc.
  split; intros; unfold zclients, zobjects; rewrite Ha; cbn [bind];
    rewrite (check_validity_seq_err _ _ _ _ _ Hc); reflexivity.
Qed.

Lemma z_selectors_invalid_group_witness :
  zclients sample_db ANone (ASeq ["eval"; "world"; "test"]) ANone ANone
  = Err (RuntimeError (invalid_msg "group" "world" dev_eval)) /\
  zobjects sample_db ANone MNone (ASeq ["eval"; "world"; "test"]) ANone ANone
  = Err (RuntimeError (invalid_msg "group" "world" dev_eval)).
Proof.
  destruct (z_selectors_invalid_group sample_db sample_store ["eval"] "world" ["test"])
    as [H1 H2].
  - reflexivity.
  - intros x [<-|[]]. simpl. auto.
  - simpl. intuition discriminate.
  - split; [apply H1 | apply H2].
Defined.

(** ** Files of the dev and eval groups *)

Lemma check_elems_ok_inv xs obj valid u :
  check_elems xs obj valid = Ok u -> forall k, In k xs -> In k (ps_elems valid).
Proof.
  induction xs as [|x r IH]; simpl; intros H k Hk; [destruct Hk|].
  destruct (str_in x (ps_elems valid)) eqn:E; [|discriminate].
  destruct Hk as [<-|Hk]; [apply str_in_true; exact E | exact (IH H k Hk)].
Qed.

Lemma members_validated a obj valid v x :
  check_validity a obj valid (ASeq (ps_elems valid)) = Ok v ->
  (In x (members v) <-> In x (ps_elems valid) /\ selects a x).
Proof.
  unfold check_validity. intros H.
  destruct a as [|s|l]; cbn [truthy negb] in H.
  - injection H as <-. simpl. tauto.
  - destruct (String.eqb s EmptyString) eqn:E; cbn [negb] in H.
    + injection H as <-. apply String.eqb_eq in E. simpl. tauto.
    + apply bind_ok in H. destruct H as [u [Ec H]]. injection H as <-.
      pose proof (check_elems_ok_inv _ _ _ _ Ec s (or_introl eq_refl)) as Hs.
      apply String.eqb_neq in E. simpl. split.
      * intros [<-|[]]. auto.
      * intros [_ [Hx|Hx]]; [contradiction | left; congruence].
  - destruct l as [|y r]; cbn [negb] in H.
    + injection H as <-. simpl. tauto.
    + apply bind_ok in H. destruct H as [u [Ec H]]. injection H as <-.
      pose proof (check_elems_ok_inv _ _ _ _ Ec) as Hall. simpl members. split.
      * intros Hx. split; [exact (Hall x Hx) | right; exact Hx].
      * intros [_ [Hx|Hx]]; [discriminate | exact Hx].
Qed.


(** On a connected store, with a non-empty list of dev/eval groups,
    every file [objects] returns is attached to a protocol purpose of a
    registered protocol let through by the protocol selector, of one of the
    groups, whose purpose (enrol or probe) is let through by the purposes
    selector, and belongs to a client let through by the gender selector. *)
Theorem objects_dev_eval_files (db : Database) (st : store) (protocol purposes : arg)
  (model_ids : model_arg) (gs : list string) (classes subworld gender : arg) (r : list File) :
  session db = Some st -> dev_or_eval gs ->
  objects db protocol purposes model_ids (ASeq gs) classes subworld gender = Ok r ->
  forall f, In f r ->
    In f (file_rows st) /\
    (exists c, file_client st f = Some c /\ selects gender (c_gender c)) /\
    exists pp, In pp (protocol_purpose_rows st) /\ In (pp_id pp) (f_protocol_purposes f) /\
               In (pp_protocol pp) (protocol_rows st) /\ selects protocol (pp_protocol pp) /\
               In (pp_sgroup pp) gs /\
               In (pp_purpose pp) ["enrol"; "probe"] /\ selects purposes (pp_purpose pp).
Proof.
  intros Hs Hgs H. unfold objects in H. inv_binds. injection H as <-.
  assert (Hgs' := Hgs). destruct Hgs' as [Hgne _].
  apply (check_validity_seq _ _ _ _ _ Hgne) in Hv4. subst v4.
  rewrite (protocol_names_ok db st Hs) in Hv0. injection Hv0 as <-.
  unfold sess in Hv8. rewrite Hs in Hv8. injection Hv8 as <-.
  intros f Hf. apply In_dedup_files in Hf. cbn [members] in Hf.
  rewrite (dev_or_eval_not_world gs Hgs) in Hf.
  assert (Hq : forall q purpose,
     (forall f c, q f c = true ->
        pp_match st v2 (ASeq gs) purpose f = true /\ opt_in v7 (c_gender c) = true) ->
     In purpose (members v3) -> In f (file_query st q) ->
     In f (file_rows st) /\
     (exists c, file_client st f = Some c /\ selects gender (c_gender c)) /\
     exists pp, In pp (protocol_purpose_rows st) /\ In (pp_id pp) (f_protocol_purposes f) /\
                In (pp_protocol pp) (protocol_rows st) /\ selects protocol (pp_protocol pp) /\
                In (pp_sgroup pp) gs /\
                In (pp_purpose pp) ["enrol"; "probe"] /\ selects purposes (pp_purpose pp)).
  { intros q purpose Hqp Hpu Hfq.
    destruct (pp_branch_sound st q v2 (ASeq gs) purpose v7 f Hqp Hfq)
      as [Hin [[c [Ec Hg]] [pp [H1 [H2 [H3 [H4 H5]]]]]]].
    split; [exact Hin|]. split.
    - exists c. split; [exact Ec | apply (opt_in_validated _ _ _ _ _ Hv7); exact Hg].
    - exists pp. rewrite (members_validated _ _ _ _ _ Hv2) in H3.
      rewrite <- H5 in Hpu. rewrite (members_validated _ _ _ _ _ Hv3) in Hpu.
      destruct H3, Hpu. auto 10. }
  rewrite !in_app_iff, !In_when in Hf.
  destruct Hf as [[Hc _]|[[Hc Hf]|[[Hc Hf]|[Hc Hf]]]]; [discriminate| | |];
    rewrite !andb_true_iff, !str_in_true in Hc.
  - eapply Hq; [| apply Hc | exact Hf].
    intros f' c Hp. rewrite !andb_true_iff in Hp. tauto.
  - eapply Hq; [| apply Hc | exact Hf].
    intros f' c Hp. rewrite !andb_true_iff in Hp. tauto.
  - eapply Hq; [| apply Hc | exact Hf].
    intros f' c Hp. rewrite !andb_true_iff in Hp. tauto.
Qed.

Lemma objects_dev_eval_files_witness :
  exists r, objects sample_db (AStr "male") (AStr "probe") MNone (ASeq ["dev"; "eval"])
              ANone ANone (AStr "male") = Ok r /\
    (In (mkFile 6 1 2 "r" 1 "mobile" "m001/s02/probe" [] [2] []) r ->
     In (mkFile 6 1 2 "r" 1 "mobile" "m001/s02/probe" [] [2] []) (file_rows sample_store) /\
     (exists c, file_client sample_store (mkFile 6 1 2 "r" 1 "mobile" "m001/s02/probe" [] [2] []) = Some c /\ selects (AStr "male") (c_gender c)) /\
     exists pp, In pp (protocol_purpose_rows sample_store) /\
                In (pp_id pp) (f_protocol_purposes (mkFile 6 1 2 "r" 1 "mobile" "m001/s02/probe" [] [2] [])) /\
                In (pp_protocol pp) (protocol_rows sample_store) /\
                selects (AStr "male") (pp_protocol pp) /\
                In (pp_sgroup pp) ["dev"; "eval"] /\
                In (pp_purpose pp) ["enrol"; "probe"] /\ selects (AStr "probe") (pp_purpose pp)).
Proof.
  exists (ok_or_nil (objects sample_db (AStr "male") (AStr "probe") MNone (ASeq ["dev"; "eval"])
                       ANone ANone (AStr "male"))).
  split; [vm_compute; reflexivity|].
  apply (objects_dev_eval_files sample_db sample_store (AStr "male") (AStr "probe") MNone
           ["dev"; "eval"] ANone ANone (AStr "male")).
  - reflexivity.
  - split; [discriminate|]. intros g [<-|[<-|[]]]; auto.
  - vm_compute. reflexivity.
Defined.
